(** * Sketch2img: the exploration notebook

    A shallow embedding of [exploration_david/Exploration.ipynb]: the label
    maps, the [SketchesDataset] class, [InvertTransform], the three
    statistics functions [dataset_mean], [dataset_std], [dataset_scaling]
    and the cell that saves [dataset_stats].

    In the statistics, tensor entries are exact real numbers: the rounding
    of float32 arithmetic is not part of that embedding.  [InvertTransform]
    is embedded a second time on float32 numbers (IEEE 754 binary32,
    rounding to nearest, ties to even), where subtracting from 1 rounds.
    Exceptions are values of [exn]; a call of [dataset[i]] made by a
    statistics function is recorded in a trace of indices. *)

From stdpp Require Import gmap strings list sorting pretty.
From Stdlib Require Import Ascii Reals Lra SpecFloat.

(** ** Python values, exceptions, results *)

(** Keys and values of [labels_id_map]: class ids and class labels live in
    one dictionary. *)
Inductive pyval :=
| PInt (n : nat)
| PStr (s : string).

Global Instance pyval_eq_dec : EqDecision pyval.
Proof. solve_decision. Defined.

Definition pyval_to_sum (v : pyval) : nat + string :=
  match v with PInt n => inl n | PStr s => inr s end.

Definition pyval_of_sum (v : nat + string) : pyval :=
  match v with inl n => PInt n | inr s => PStr s end.

Global Instance pyval_countable : Countable pyval.
Proof.
  apply (inj_countable' pyval_to_sum pyval_of_sum).
  by intros [].
Defined.

Inductive exn :=
| FileNotFoundError (path : string)
| IndexError
| KeyError (k : pyval)
| TypeError
| ValueError
| RuntimeError
| ZeroDivisionError
| AttributeError
| UnicodeDecodeError
| ParserError
| OSError
| NotADirectoryError (path : string).

Inductive result (A : Type) :=
| Ok (a : A)
| Raise (e : exn).
Arguments Ok {A} a.
Arguments Raise {A} e.

Definition rbind {A B} (m : result A) (f : A -> result B) : result B :=
  match m with
  | Ok a => f a
  | Raise e => Raise e
  end.

Notation "x <- m ;; k" := (rbind m (fun x => k))
  (at level 100, m at next level, right associativity).

Fixpoint mapR {A B} (f : A -> result B) (l : list A) : result (list B) :=
  match l with
  | [] => Ok []
  | a :: l' => b <- f a ;; bs <- mapR f l' ;; Ok (b :: bs)
  end.

(** A computation that calls [dataset[i]]: the result and the indices read,
    in order.  An exception ends the computation. *)
Definition M (A : Type) : Type := result (A * list nat).

Definition ret {A} (a : A) : M A := Ok (a, []).

Definition bind {A B} (m : M A) (f : A -> M B) : M B :=
  match m with
  | Ok (a, w) =>
      match f a with
      | Ok (b, w') => Ok (b, w ++ w')
      | Raise e => Raise e
      end
  | Raise e => Raise e
  end.

Definition lift {A} (m : result A) : M A :=
  match m with
  | Ok a => Ok (a, [])
  | Raise e => Raise e
  end.

Notation "x <~ m ;; k" := (bind m (fun x => k))
  (at level 100, m at next level, right associativity).

(** ** Tensors *)

(** A C×H×W tensor: channels, rows, columns. *)
Definition tensor3 := list (list (list R)).

(** [t.size()] *)
Definition size (t : tensor3) : nat * nat * nat :=
  (length t, length (hd [] t), length (hd [] (hd [] t))).

(** Row-major storage of a tensor and its number of elements. *)
Definition flat (t : tensor3) : list R := concat (concat t).
Definition numel (t : tensor3) : nat := length (flat t).

(** A tensor of shape (c, h, w). *)
Definition has_shape (c h w : nat) (t : tensor3) : Prop :=
  length t = c /\
  Forall (fun ch => length ch = h /\ Forall (fun row => length row = w) ch) t.

Definition Rsum (l : list R) : R := foldr Rplus 0%R l.

Definition vadd (u v : list R) : list R := zip_with Rplus u v.

(** A decoded image file, as PIL holds it after [convert('RGB')]: bands of
    rows of bytes. *)
Definition pil_image := list (list (list N)).

(** What a dataset item holds: the PIL image, or the tensor a transform
    made of it. *)
Inductive sample :=
| PIL (im : pil_image)
| Tensor (t : tensor3).

Definition item : Type := sample * pyval.

(** The [Dataset] interface of torch.utils.data: [__len__] and
    [__getitem__]. *)
Record Dataset := {
  len : nat;
  getitem : nat -> result item
}.

(** ** DataLoader *)

(** BatchSampler over a sequential sampler, [drop_last=False]: indices are
    appended to the current batch, which is yielded when it is full; what
    remains at the end is yielded when it is not empty. *)
Fixpoint batch_sampler (batch_size : nat) (batch : list nat) (sampler : list nat)
  : list (list nat) :=
  match sampler with
  | [] => if decide (0 < length batch) then [batch] else []
  | idx :: rest =>
      let batch := batch ++ [idx] in
      if decide (length batch = batch_size)
      then batch :: batch_sampler batch_size [] rest
      else batch_sampler batch_size batch rest
  end.

Record DataLoader_obj := {
  dl_dataset : Dataset;
  dl_batches : list (list nat)
}.

(** [DataLoader(dataset, batch_size=batch_size)]; a batch size that is not
    positive is refused. *)
Definition DataLoader (dataset : Dataset) (batch_size : nat) : result DataLoader_obj :=
  if decide (batch_size = 0) then Raise ValueError
  else Ok {| dl_dataset := dataset;
             dl_batches := batch_sampler batch_size [] (seq 0 (len dataset)) |}.

(** One call of [dataset[i]], recorded. *)
Definition read (dataset : Dataset) (i : nat) : M item :=
  match getitem dataset i with
  | Ok it => Ok (it, [i])
  | Raise e => Raise e
  end.

Fixpoint fetch (dataset : Dataset) (idxs : list nat) : M (list item) :=
  match idxs with
  | [] => ret []
  | i :: idxs' =>
      it <~ read dataset i ;;
      its <~ fetch dataset idxs' ;;
      ret (it :: its)
  end.

Definition as_tensor (s : sample) : result tensor3 :=
  match s with
  | Tensor t => Ok t
  | PIL _ => Raise TypeError
  end.

(** [torch.stack]: every tensor must have the size of the first. *)
Definition stack (ts : list tensor3) : result (list tensor3) :=
  match ts with
  | [] => Raise RuntimeError
  | t :: _ =>
      if decide (Forall (fun u => size u = size t) ts) then Ok ts
      else Raise RuntimeError
  end.

Definition is_int (v : pyval) : bool :=
  match v with PInt _ => true | PStr _ => false end.

(** Labels are collated by the type of the first: ints become one tensor,
    strings stay a list. *)
Definition collate_labels (ls : list pyval) : result unit :=
  match ls with
  | PInt _ :: _ => if forallb is_int ls then Ok tt else Raise TypeError
  | _ => Ok tt
  end.

(** [default_collate] on a list of (sample, label) pairs; the batch tensor
    B×C×H×W is the list of its B images. *)
Definition default_collate (items : list item) : result (list tensor3) :=
  ts <- mapR as_tensor (map fst items) ;;
  batch <- stack ts ;;
  _ <- collate_labels (map snd items) ;;
  Ok batch.

(** [for batch, _ in dl: body], threading the variables the body assigns. *)
Fixpoint for_batches {S} (dataset : Dataset) (batches : list (list nat))
    (body : list tensor3 -> S -> result S) (s : S) : M S :=
  match batches with
  | [] => ret s
  | idxs :: rest =>
      items <~ fetch dataset idxs ;;
      batch <~ lift (default_collate items) ;;
      s' <~ lift (body batch s) ;;
      for_batches dataset rest body s'
  end.

Definition iterate {S} (dl : DataLoader_obj)
    (body : list tensor3 -> S -> result S) (s : S) : M S :=
  for_batches (dl_dataset dl) (dl_batches dl) body s.

(** ** Tensor operations used by the statistics functions *)

(** [c] rows of [k] consecutive entries of a storage. *)
Definition rows (c k : nat) (storage : list R) : list (list R) :=
  reshape (replicate c k) storage.

(** [batch.view(batch_samples, c, -1)]: the inferred size is the number of
    elements divided by [batch_samples * c], which must be positive and
    divide it. *)
Definition view (batch : list tensor3) (batch_samples c : nat)
  : result (list (list (list R))) :=
  let n := sum_list (map numel batch) in
  let newsize := batch_samples * c in
  if decide (0 < newsize /\ n `mod` newsize = 0) then
    Ok (map (fun t => rows c (n / newsize) (flat t)) batch)
  else Raise RuntimeError.

(** [batch.size(0)] and [batch.size(1)] of a stacked batch. *)
Definition size0 (batch : list tensor3) : nat := length batch.
Definition size1 (batch : list tensor3) : nat := length (hd [] batch).

(** [x.mean()] along the last dimension. *)
Definition mean_row (l : list R) : R := (Rsum l / INR (length l))%R.

(** [m.sum(0)] of a B×c matrix. *)
Definition sum0 (c : nat) (rows : list (list R)) : list R :=
  foldr vadd (replicate c 0%R) rows.

(** A Python number or a one-dimensional tensor: [mean = 0.] is the first,
    [mean += tensor] makes it the second. *)
Inductive pynum :=
| Scalar (x : R)
| Vector (v : list R).

(** [acc += v] for a one-dimensional tensor [v]: a float gives a new tensor;
    a tensor is updated in place, [v] broadcast to its shape. *)
Definition iadd (acc : pynum) (v : list R) : result pynum :=
  match acc with
  | Scalar a => Ok (Vector (map (Rplus a) v))
  | Vector u =>
      if decide (length v = length u) then Ok (Vector (vadd u v))
      else if decide (length v = 1) then Ok (Vector (map (fun x => x + hd 0 v)%R u))
      else Raise RuntimeError
  end.

(** [acc /= n] for an int [n]. *)
Definition idiv (acc : pynum) (n : nat) : result pynum :=
  match acc with
  | Scalar a => if decide (n = 0) then Raise ZeroDivisionError else Ok (Scalar (a / INR n))
  | Vector u => Ok (Vector (map (fun x => x / INR n)%R u))
  end.

(** [batch - mean.unsqueeze(1)] on one image of a viewed batch: the
    channels against the entries of [mean], equal in number or one of the
    two a single one. *)
Definition sub_broadcast (chans : list (list R)) (mean : list R)
  : result (list (list R)) :=
  if decide (length chans = length mean) then
    Ok (zip_with (fun ch m => map (fun x => x - m)%R ch) chans mean)
  else if decide (length mean = 1) then
    Ok (map (fun ch => map (fun x => x - hd 0 mean)%R ch) chans)
  else if decide (length chans = 1) then
    Ok (map (fun m => map (fun x => x - m)%R (hd [] chans)) mean)
  else Raise RuntimeError.

(** [mean.unsqueeze(1)] needs a tensor; the broadcast of the new axis is
    part of [sub_broadcast]. *)
Definition unsqueeze (mean : pynum) : result (list R) :=
  match mean with
  | Vector v => Ok v
  | Scalar _ => Raise AttributeError
  end.

Definition square (x : R) : R := (x ^ 2)%R.

(** [torch.max(batch)] and [torch.min(batch)]: no value for no elements. *)
Definition torch_max (l : list R) : result R :=
  match l with
  | [] => Raise RuntimeError
  | x :: l' => Ok (foldr Rmax x l')
  end.

Definition torch_min (l : list R) : result R :=
  match l with
  | [] => Raise RuntimeError
  | x :: l' => Ok (foldr Rmin x l')
  end.

(** ** The statistics functions *)

Definition default_batch_size : nat := 100.

(** The body of the loop of [dataset_mean]. *)
Definition mean_body (batch : list tensor3) (mean : pynum) : result pynum :=
  let batch_samples := size0 batch in
  let c := size1 batch in
  batch <- view batch batch_samples c ;;
  iadd mean (sum0 c (map (map mean_row) batch)).

(** [dataset_mean(dataset, batch_size)] *)
Definition dataset_mean (dataset : Dataset) (batch_size : nat) : M pynum :=
  dl <~ lift (DataLoader dataset batch_size) ;;
  let mean := Scalar 0 in
  mean <~ iterate dl mean_body mean ;;
  mean <~ lift (idiv mean (len (dl_dataset dl))) ;;
  ret mean.

(** The body of the loop of [dataset_std]; [c] and [mean] are those of the
    enclosing call. *)
Definition std_body (c : nat) (mean : pynum) (batch : list tensor3) (var : pynum)
  : result pynum :=
  let batch_samples := size0 batch in
  batch <- view batch batch_samples c ;;
  m <- unsqueeze mean ;;
  d <- mapR (fun im => sub_broadcast im m) batch ;;
  let sq := map (map (map square)) d in
  iadd var (sum0 (length (hd [] sq)) (map (map Rsum) sq)).

(** [torch.sqrt(var / n)] *)
Definition sqrt_div (var : pynum) (n : nat) : result (list R) :=
  match var with
  | Scalar x => if decide (n = 0) then Raise ZeroDivisionError else Raise TypeError
  | Vector v => Ok (map (fun x => sqrt (x / INR n)) v)
  end.

(** [dataset_std(dataset, mean, batch_size)] *)
Definition dataset_std (dataset : Dataset) (mean : pynum) (batch_size : nat)
  : M (list R) :=
  it <~ read dataset 0 ;;
  t <~ lift (as_tensor (fst it)) ;;
  let '(c, h, w) := size t in
  dl <~ lift (DataLoader dataset batch_size) ;;
  let var := Scalar 0 in
  var <~ iterate dl (std_body c mean) var ;;
  std <~ lift (sqrt_div var (len (dl_dataset dl) * h * w)) ;;
  ret std.

(** The body of the loop of [dataset_scaling] on the pair
    (min_value, max_value). *)
Definition scaling_body (batch : list tensor3) (mm : R * R) : result (R * R) :=
  let '(min_value, max_value) := mm in
  let batch_samples := size0 batch in
  batch <- view batch batch_samples (size1 batch) ;;
  hi <- torch_max (concat (concat batch)) ;;
  let max_value := Rmax max_value hi in
  lo <- torch_min (concat (concat batch)) ;;
  let min_value := Rmin min_value lo in
  Ok (min_value, max_value).

(** [dataset_scaling(dataset, batch_size)] *)
Definition dataset_scaling (dataset : Dataset) (batch_size : nat) : M R :=
  dl <~ lift (DataLoader dataset batch_size) ;;
  let min_value := 1%R in
  let max_value := (-1)%R in
  mm <~ iterate dl scaling_body (min_value, max_value) ;;
  let '(min_value, max_value) := mm in
  let scaling := Rmax (Rabs min_value) (Rabs max_value) in
  ret scaling.

(** The value a computation returns, and the indices it read. *)
Definition value {A} (m : M A) : result A :=
  match m with
  | Ok (a, _) => Ok a
  | Raise e => Raise e
  end.

Definition trace {A} (m : M A) : option (list nat) :=
  match m with
  | Ok (_, w) => Some w
  | Raise _ => None
  end.

(** ** Transforms *)

Definition Transform : Type := sample -> result sample.

(** [transforms.ToTensor()]: bytes become reals in [0, 1]. *)
Definition to_tensor (im : pil_image) : tensor3 :=
  map (map (map (fun b => (IZR (Z.of_N b) / 255)%R))) im.

Definition ToTensor : Transform := fun pic =>
  match pic with
  | PIL im => Ok (Tensor (to_tensor im))
  | Tensor _ => Raise TypeError
  end.

(** [a - t] for a number [a]. *)
Definition rsub (a : R) (t : tensor3) : tensor3 :=
  map (map (map (fun x => (a - x)%R))) t.

(** [InvertTransform.__call__(sample)]: [1 - sample], in the exact
    arithmetic of the statistics.  [InvertTransform_f32] below is the same
    method on float32 numbers, where the subtraction rounds. *)
Definition InvertTransform : Transform := fun sample =>
  match sample with
  | Tensor t => Ok (Tensor (rsub 1 t))
  | PIL _ => Raise TypeError
  end.

(** (x - mean[c]) / std[c] on every channel c. *)
Definition normalize (mean std : list R) (t : tensor3) : tensor3 :=
  zip_with (fun ch ms => map (map (fun x => (x - fst ms) / snd ms)%R) ch)
           t (zip mean std).

Global Instance R_eq_dec : EqDecision R := Req_dec_T.

(** [v.view(-1, 1, 1)] broadcast in place against a tensor of [c]
    channels: one entry per channel, or one entry for all of them. *)
Definition broadcast_channels (v : list R) (c : nat) : option (list R) :=
  if decide (length v = c) then Some v
  else if decide (length v = 1) then Some (replicate c (hd 0%R v))
  else None.

(** [transforms.Normalize(mean, std)]: a zero in [std] is refused with
    [ValueError]; then [tensor.sub_(mean).div_(std)], with [mean] and
    [std] broadcast over the channels. *)
Definition Normalize (mean std : list R) : Transform := fun s =>
  match s with
  | Tensor t =>
      if decide (Exists (fun x => x = 0%R) std) then Raise ValueError
      else
        match broadcast_channels mean (length t),
              broadcast_channels std (length t) with
        | Some mean, Some std => Ok (Tensor (normalize mean std t))
        | _, _ => Raise RuntimeError
        end
  | PIL _ => Raise TypeError
  end.

(** [transforms.Compose(transforms)] *)
Fixpoint Compose (transforms : list Transform) : Transform := fun img =>
  match transforms with
  | [] => Ok img
  | t :: ts => img <- t img ;; Compose ts img
  end.

(** The dataset object of an [ImageFolder], by the (image, class index)
    pairs it found under its root: [__len__] and [__getitem__]. *)
Definition ImageFolder_dataset (samples : list (pil_image * nat))
    (transform : option Transform) : Dataset :=
  {| len := length samples;
     getitem index :=
       match samples !! index with
       | None => Raise IndexError
       | Some (im, target) =>
           sample <- match transform with
                     | Some t => t (PIL im)
                     | None => Ok (PIL im)
                     end ;;
           Ok (sample, PInt target)
       end |}.

(** [ImageFolder(root, transform)], by the (image, class index) pairs it
    finds under [root]: a root without any image is refused with
    [RuntimeError]. *)
Definition ImageFolder (samples : list (pil_image * nat)) (transform : option Transform)
  : result Dataset :=
  match samples with
  | [] => Raise RuntimeError
  | _ :: _ => Ok (ImageFolder_dataset samples transform)
  end.

(** ** InvertTransform on float32 numbers *)

(** A float32 number: IEEE 754 binary32, with 24 bits of precision and
    exponents below 128.  Its operations round to nearest, ties to
    even. *)
Definition float32 : Type := spec_float.

Global Instance float32_eq_dec : EqDecision float32.
Proof. solve_decision. Defined.
















(** ** Files *)

(** A row of stats.csv: the columns the notebook reads. *)
Record stats_row := {
  Category : string;
  ImageNetID : string;
  SketchID : nat;
  col_Error : Z;
  col_Ambiguous : Z;
  col_WrongPose : Z;
  col_Context : Z
}.

(** A value of an .npz archive: an array or a zero-dimensional array. *)
Inductive npvalue :=
| NpArray (v : list R)
| NpScalar (x : R).

(** A file, by what its reader gets from it. *)
Inductive file :=
| TextFile (lines : list string)
| CsvFile (rows : list stats_row)
| ImageFile (im : pil_image)
| NpzFile (arrays : list (string * npvalue)).

Record World := {
  files : gmap string file;
  dirs : gmap string (list string)
}.

(** [[line for line in open(path, 'r')]] *)
Definition open_lines (w : World) (path : string) : result (list string) :=
  match files w !! path with
  | None => Raise (FileNotFoundError path)
  | Some (TextFile ls) => Ok ls
  | Some _ => Raise UnicodeDecodeError
  end.

(** [pd.read_csv(path)] *)
Definition read_csv (w : World) (path : string) : result (list stats_row) :=
  match files w !! path with
  | None => Raise (FileNotFoundError path)
  | Some (CsvFile rows) => Ok rows
  | Some _ => Raise ParserError
  end.

(** [PIL.Image.open(open(path, 'rb')).convert('RGB')] *)
Definition open_image (w : World) (path : string) : result pil_image :=
  match files w !! path with
  | None => Raise (FileNotFoundError path)
  | Some (ImageFile im) => Ok im
  | Some _ => Raise OSError
  end.

(** [os.listdir(path)] *)
Definition listdir (w : World) (path : string) : result (list string) :=
  match dirs w !! path with
  | Some names => Ok names
  | None =>
      match files w !! path with
      | Some _ => Raise (NotADirectoryError path)
      | None => Raise (FileNotFoundError path)
      end
  end.

Definition startswith_sep (s : string) : bool :=
  match s with
  | String c _ => Ascii.eqb c "/"%char
  | EmptyString => false
  end.

Fixpoint endswith_sep (s : string) : bool :=
  match s with
  | EmptyString => false
  | String c EmptyString => Ascii.eqb c "/"%char
  | String _ r => endswith_sep r
  end.

(** One step of [os.path.join]. *)
Definition join2 (path b : string) : string :=
  if startswith_sep b then b
  else if String.eqb path "" || endswith_sep path then String.append path b
  else String.append path (String.append "/" b).

(** [os.path.join(a, *p)] *)
Definition path_join (a : string) (p : list string) : string :=
  foldl join2 a p.

(** [s.replace(old, new)] for single characters. *)
Fixpoint replace_char (old new : Ascii.ascii) (s : string) : string :=
  match s with
  | EmptyString => EmptyString
  | String c r =>
      String (if Ascii.eqb c old then new else c) (replace_char old new r)
  end.

(** ** Constants and label maps *)

Definition DATA_DIR : string := "../learning/datasets/sketchy/256x256".
Definition PHOTOS_AUG : string := "tx_000100000000".
Definition PHOTOS_DIR : string := path_join DATA_DIR ["photo"; PHOTOS_AUG].
Definition SKETCHES_AUG : string := "tx_000000000010".
Definition SKETCHES_DIR : string := path_join DATA_DIR ["sketch"; SKETCHES_AUG].
Definition INFO_DIR : string := "../learning/datasets/info-06-04/info".

(** [sorted(names)] on strings. *)
Definition sorted (names : list string) : list string :=
  merge_sort String.le names.

(** [enumerate(l)] *)
Definition enumerate {A} (l : list A) : list (nat * A) :=
  imap (fun i x => (i, x)) l.

(** [d[k]] *)
Definition dict_get (d : gmap pyval pyval) (k : pyval) : result pyval :=
  match d !! k with
  | Some v => Ok v
  | None => Raise (KeyError k)
  end.

(** The body of the loop of [generate_labels_id_map]. *)
Definition labels_step (d : gmap pyval pyval) (il : nat * string) : gmap pyval pyval :=
  let i := fst il in
  let label := snd il in
  let d := <[PInt i := PStr label]> d in
  let d := <[PStr label := PInt i]> d in
  d.

(** [generate_labels_id_map(photos_dir)] *)
Definition generate_labels_id_map (w : World) (photos_dir : string)
  : result (gmap pyval pyval) :=
  names <- listdir w photos_dir ;;
  let d := ∅ in
  Ok (foldl labels_step d (enumerate (sorted names))).

(** ** SketchesDataset *)

Record SketchesDataset := {
  sketches_dir : string;
  info_dir : string;
  transform : option Transform;
  invalid : list string;
  stats : list stats_row
}.

(** The defaults of the keyword arguments of [__init__]. *)
Definition transform_default : option Transform := None.
Definition remove_error_default : bool := true.
Definition remove_ambiguous_default : bool := false.
Definition remove_pose_default : bool := false.
Definition remove_context_default : bool := false.

(** [SketchesDataset.__init__] *)
Definition SketchesDataset_init (w : World) (sketches_dir info_dir : string)
    (transform : option Transform)
    (remove_error remove_ambiguous remove_pose remove_context : bool)
  : result SketchesDataset :=
  invalid <- open_lines w (path_join info_dir ["invalid-error.txt"]) ;;
  stats <- read_csv w (path_join info_dir ["stats.csv"]) ;;
  let stats :=
    if remove_error then filter (fun r => col_Error r = 0%Z) stats else stats in
  let stats :=
    if remove_ambiguous then filter (fun r => col_Ambiguous r = 0%Z) stats else stats in
  let stats :=
    if remove_pose then filter (fun r => col_WrongPose r = 0%Z) stats else stats in
  let stats :=
    if remove_context then filter (fun r => col_Context r = 0%Z) stats else stats in
  Ok {| sketches_dir := sketches_dir;
        info_dir := info_dir;
        transform := transform;
        invalid := invalid;
        stats := stats |}.

(** [SketchesDataset.__len__] *)
Definition SketchesDataset_len (self : SketchesDataset) : nat :=
  length (stats self).

(** The path [__getitem__] opens for a row. *)
Definition class_folder (row : stats_row) : string :=
  replace_char " "%char "_"%char (Category row).

Definition sketch_file (row : stats_row) : string :=
  String.append (ImageNetID row)
    (String.append "-" (String.append (pretty (SketchID row)) ".png")).

Definition sketch_path (self : SketchesDataset) (row : stats_row) : string :=
  path_join (sketches_dir self) [class_folder row; sketch_file row].

(** [SketchesDataset.__getitem__]; [labels_id_map] is the global of the
    notebook. *)
Definition SketchesDataset_getitem (w : World) (labels_id_map : gmap pyval pyval)
    (self : SketchesDataset) (idx : nat) : result item :=
  match stats self !! idx with
  | None => Raise IndexError
  | Some row =>
      let class_folder := class_folder row in
      let sketch_path := sketch_path self row in
      image <- open_image w sketch_path ;;
      image <- match transform self with
               | Some t => t (PIL image)
               | None => Ok (PIL image)
               end ;;
      label <- dict_get labels_id_map (PStr class_folder) ;;
      Ok (image, label)
  end.

(** A [SketchesDataset] seen through the [Dataset] interface. *)
Definition SketchesDataset_dataset (w : World) (labels_id_map : gmap pyval pyval)
    (self : SketchesDataset) : Dataset :=
  {| len := SketchesDataset_len self;
     getitem := SketchesDataset_getitem w labels_id_map self |}.

(** ** Saving the statistics *)

(** [t.numpy()] *)
Definition numpy (t : pynum) : result npvalue :=
  match t with
  | Vector v => Ok (NpArray v)
  | Scalar _ => Raise AttributeError
  end.

(** The entries of a tensor given as [mean=] to [Normalize]. *)
Definition entries (t : pynum) : list R :=
  match t with
  | Vector v => v
  | Scalar x => [x]
  end.

Definition endswith (s suffix : string) : bool :=
  String.prefix (String.rev suffix) (String.rev s).

(** [np.savez(file, **kwds)] *)
Definition np_savez (w : World) (file : string) (kwds : list (string * npvalue))
  : World :=
  let file := if endswith file ".npz" then file else String.append file ".npz" in
  {| files := <[file := NpzFile kwds]> (files w); dirs := dirs w |}.

(** The cells under "Pre-processing images", from the photos [ImageFolder]
    finds to the call of [np.savez]. *)
Definition preprocessing (w : World) (labels_id_map : gmap pyval pyval)
    (photos : list (pil_image * nat)) : result World :=
  photos_dataset <- ImageFolder photos (Some ToTensor) ;;
  photos_mean <- value (dataset_mean photos_dataset default_batch_size) ;;
  photos_std <- value (dataset_std photos_dataset photos_mean default_batch_size) ;;
  photos_dataset <-
    ImageFolder photos
      (Some (Compose [ToTensor; Normalize (entries photos_mean) [1; 1; 1]%R])) ;;
  photos_scaling <- value (dataset_scaling photos_dataset default_batch_size) ;;
  sketches_dataset <-
    SketchesDataset_init w SKETCHES_DIR INFO_DIR
      (Some (Compose [ToTensor; InvertTransform]))
      remove_error_default remove_ambiguous_default
      remove_pose_default remove_context_default ;;
  let sketches_dataset := SketchesDataset_dataset w labels_id_map sketches_dataset in
  sketches_mean <- value (dataset_mean sketches_dataset default_batch_size) ;;
  sketches_std <- value (dataset_std sketches_dataset sketches_mean default_batch_size) ;;
  sketches_dataset <-
    SketchesDataset_init w SKETCHES_DIR INFO_DIR
      (Some (Compose [ToTensor; InvertTransform;
                      Normalize (entries sketches_mean) [1; 1; 1]%R]))
      remove_error_default remove_ambiguous_default
      remove_pose_default remove_context_default ;;
  let sketches_dataset := SketchesDataset_dataset w labels_id_map sketches_dataset in
  sketches_scaling <- value (dataset_scaling sketches_dataset default_batch_size) ;;
  photos_mean_np <- numpy photos_mean ;;
  sketches_mean_np <- numpy sketches_mean ;;
  Ok (np_savez w "dataset_stats"
        [("photos_mean", photos_mean_np);
         ("photos_std", NpArray photos_std);
         ("photos_scaling", NpScalar photos_scaling);
         ("sketches_mean", sketches_mean_np);
         ("sketches_std", NpArray sketches_std);
         ("sketches_scaling", NpScalar sketches_scaling)]).

(** ** The datasets the statistics are stated for *)

(** [dataset] holds the tensors [imgs], each with an integer class id. *)
Definition stores (dataset : Dataset) (imgs : list tensor3) : Prop :=
  len dataset = length imgs /\
  forall i t, imgs !! i = Some t ->
    exists id, getitem dataset i = Ok (Tensor t, PInt id).

(** An in-memory dataset of tensors, all of class 0. *)
Definition of_tensors (imgs : list tensor3) : Dataset :=
  {| len := length imgs;
     getitem i := match imgs !! i with
                  | Some t => Ok (Tensor t, PInt 0)
                  | None => Raise IndexError
                  end |}.

(** The loop of a statistics function over batches of images already
    fetched and collated. *)
Fixpoint foldR {S} (body : list tensor3 -> S -> result S)
    (batches : list (list tensor3)) (s : S) : result S :=
  match batches with
  | [] => Ok s
  | b :: rest => s' <- body b s ;; foldR body rest s'
  end.

(** All pixels of channel [j] of the dataset, image after image. *)
Definition channel_pixels (imgs : list tensor3) (j : nat) : list R :=
  concat (map (fun t => concat (nth j t [])) imgs).

(** All pixels of the dataset. *)
Definition all_pixels (imgs : list tensor3) : list R :=
  concat (map flat imgs).

(** The reference statistics. *)
Definition mean_ref (c h w : nat) (imgs : list tensor3) : list R :=
  map (fun j => Rsum (channel_pixels imgs j) / INR (length imgs * h * w))%R
      (seq 0 c).

Definition std_ref (c h w : nat) (mean : list R) (imgs : list tensor3) : list R :=
  map (fun j =>
         sqrt (Rsum (map (fun x => (x - nth j mean 0) ^ 2) (channel_pixels imgs j))
               / INR (length imgs * h * w)))%R
      (seq 0 c).

Definition Rmaximum (x : R) (l : list R) : R := foldr Rmax x l.
Definition Rminimum (x : R) (l : list R) : R := foldr Rmin x l.

(** The per-channel means of one image. *)
Definition chan_means (t : tensor3) : list R :=
  map (fun ch => mean_row (concat ch)) t.

(** The batches of images a DataLoader yields on the dataset [imgs]. *)
Definition image_batches (imgs : list tensor3) (batch_size : nat) : list (list tensor3) :=
  map (map (fun i => nth i imgs [])) (batch_sampler batch_size [] (seq 0 (length imgs))).

Definition from_result {A} (d : A) (r : result A) : A :=
  match r with
  | Ok a => a
  | Raise _ => d
  end.

(** What one image adds to [var]: per channel, the sum of the squared
    deviations of its pixels. *)
Definition sqdev (mean : list R) (t : tensor3) : list R :=
  map Rsum (map (map square)
    (from_result [] (sub_broadcast (map (@concat R) t) mean))).

(** The channel counts [c] of the batch and [l] of [mean] broadcast. *)
Definition bc_ok (c l : nat) : Prop := c = l \/ l = 1 \/ c = 1.

Definition bc_len (c l : nat) : nat :=
  if decide (c = l) then c else if decide (l = 1) then c else l.

(** [m] is the least (greatest) entry of [l]. *)
Definition is_min (m : R) (l : list R) : Prop :=
  In m l /\ forall x, In x l -> (m <= x)%R.
Definition is_max (m : R) (l : list R) : Prop :=
  In m l /\ forall x, In x l -> (x <= m)%R.

(** Two 1×1×2 images. *)
Definition two_images : list tensor3 :=
  [ [[[0%R; 1%R]]]; [[[1%R; 3%R]]] ].

(** A 1×1×1 image followed by a 1×1×2 image. *)
Definition ragged_images : list tensor3 :=
  [ [[[0%R]]]; [[[0%R; 0%R]]] ].

(** A 3×1×2 image whose pixels are all 0, as a dataset of one constant
    image is after its mean was subtracted. *)
Definition black_images : list tensor3 :=
  [ [[[0%R; 0%R]]; [[0%R; 0%R]]; [[0%R; 0%R]]] ].

(** How often index [i] occurs in a trace. *)
Definition reads (w : list nat) (i : nat) : nat :=
  length (filter (fun j => j = i) w).

(** Every entry of the tensor lies in [lo, hi]. *)
Definition entries_in (lo hi : R) (t : tensor3) : Prop :=
  Forall (Forall (Forall (fun x => lo <= x <= hi)%R)) t.

(** The rows [__init__] keeps. *)
Definition retained (remove_error remove_ambiguous remove_pose remove_context : bool)
    (row : stats_row) : Prop :=
  (remove_error = true -> col_Error row = 0%Z) /\
  (remove_ambiguous = true -> col_Ambiguous row = 0%Z) /\
  (remove_pose = true -> col_WrongPose row = 0%Z) /\
  (remove_context = true -> col_Context row = 0%Z).

Global Instance retained_dec re ra rp rc row : Decision (retained re ra rp rc row).
Proof. unfold retained. apply _. Defined.

(** A world with the two info files, four rows of statistics and one
    sketch. *)
Definition example_rows : list stats_row :=
  [ {| Category := "alarm clock"; ImageNetID := "n02694662_92"; SketchID := 1;
       col_Error := 0; col_Ambiguous := 0; col_WrongPose := 0; col_Context := 0 |};
    {| Category := "alarm clock"; ImageNetID := "n02694662_92"; SketchID := 2;
       col_Error := 1; col_Ambiguous := 0; col_WrongPose := 0; col_Context := 0 |};
    {| Category := "ant"; ImageNetID := "n02219486_27"; SketchID := 1;
       col_Error := 0; col_Ambiguous := 1; col_WrongPose := 0; col_Context := 0 |};
    {| Category := "ant"; ImageNetID := "n02219486_27"; SketchID := 3;
       col_Error := 0; col_Ambiguous := 0; col_WrongPose := 1; col_Context := 1 |} ].

Definition example_world : World :=
  {| files :=
       <[ "info/invalid-error.txt" := TextFile ["n02694662_92-2"] ]>
       (<[ "info/stats.csv" := CsvFile example_rows ]>
       (<[ "sketches/alarm_clock/n02694662_92-1.png" :=
             ImageFile [[[255%N; 0%N]]; [[255%N; 0%N]]; [[255%N; 0%N]]] ]> ∅));
     dirs := <[ "photos" := ["ant"; "alarm_clock"] ]> ∅ |}.

(** The dataset [SketchesDataset("sketches", "info")] of the example
    world. *)
Definition example_sketches : SketchesDataset :=
  {| sketches_dir := "sketches";
     info_dir := "info";
     transform := None;
     invalid := ["n02694662_92-2"];
     stats := filter (fun r => col_Error r = 0%Z) example_rows |}.

(** A decoded image of [c] bands, [h] rows and [w] columns. *)
Definition pil_shape (c h w : nat) (im : pil_image) : Prop :=
  length im = c /\
  Forall (fun band => length band = h /\ Forall (fun row => length row = w) band) im.

(** The scaling factor of a dataset of tensors. *)
Definition scaling_ref (imgs : list tensor3) : R :=
  Rmax (Rabs (Rminimum 1 (all_pixels imgs))) (Rabs (Rmaximum (-1) (all_pixels imgs))).

(** The sketches of the rows kept by default are in the world [w], and
    their class folders in [labels_id_map]. *)
Definition sketches_present (w : World) (labels_id_map : gmap pyval pyval)
    (rows : list stats_row) (ims : list pil_image) : Prop :=
  Forall2 (fun row im =>
             files w !! path_join SKETCHES_DIR [class_folder row; sketch_file row]
               = Some (ImageFile im) /\
             exists id, labels_id_map !! PStr (class_folder row) = Some (PInt id))
          (filter (fun r => col_Error r = 0%Z) rows) ims.

(** The statistics archive of photos [ps] and sketches [ss], both already
    tensors (the sketches inverted). *)
Definition stats_archive (h w h' w' : nat) (ps ss : list tensor3)
  : list (string * npvalue) :=
  let photos_mean := mean_ref 3 h w ps in
  let sketches_mean := mean_ref 3 h' w' ss in
  [("photos_mean", NpArray photos_mean);
   ("photos_std", NpArray (std_ref 3 h w photos_mean ps));
   ("photos_scaling",
      NpScalar (scaling_ref (map (normalize photos_mean [1; 1; 1]%R) ps)));
   ("sketches_mean", NpArray sketches_mean);
   ("sketches_std", NpArray (std_ref 3 h' w' sketches_mean ss));
   ("sketches_scaling",
      NpScalar (scaling_ref (map (normalize sketches_mean [1; 1; 1]%R) ss)))].

(** A world for the notebook: the info files at [INFO_DIR], one kept
    sketch at [SKETCHES_DIR]; one photo. *)
Definition notebook_rows : list stats_row :=
  [ {| Category := "alarm clock"; ImageNetID := "n02694662_92"; SketchID := 1;
       col_Error := 0; col_Ambiguous := 0; col_WrongPose := 0; col_Context := 0 |};
    {| Category := "alarm clock"; ImageNetID := "n02694662_92"; SketchID := 2;
       col_Error := 1; col_Ambiguous := 0; col_WrongPose := 0; col_Context := 0 |} ].

Definition notebook_sketch : pil_image :=
  [[[255%N; 0%N]]; [[255%N; 0%N]]; [[255%N; 0%N]]].

Definition notebook_world : World :=
  {| files :=
       <[ path_join INFO_DIR ["invalid-error.txt"] := TextFile [] ]>
       (<[ path_join INFO_DIR ["stats.csv"] := CsvFile notebook_rows ]>
       (<[ path_join SKETCHES_DIR ["alarm_clock"; "n02694662_92-1.png"] :=
             ImageFile notebook_sketch ]> ∅));
     dirs := ∅ |}.

Definition notebook_labels : gmap pyval pyval :=
  <[ PStr "alarm_clock" := PInt 0 ]> (<[ PInt 0 := PStr "alarm_clock" ]> ∅).

Definition notebook_photos : list (pil_image * nat) :=
  [ ([[[0%N; 255%N]]; [[10%N; 20%N]]; [[30%N; 40%N]]], 0) ].

(** ** Further code of the notebook and its properties: definitions *)

(** A [SketchesDataset] all of whose rows were removed. *)
Definition no_sketches : SketchesDataset :=
  {| sketches_dir := "sketches"; info_dir := "info"; transform := None;
     invalid := []; stats := [] |}.

(** Flag by flag, [f'] removes what [f] removes. *)
Definition flags_le (f f' : bool * bool * bool * bool) : Prop :=
  let '(re, ra, rp, rc) := f in
  let '(re', ra', rp', rc') := f' in
  (re = true -> re' = true) /\ (ra = true -> ra' = true) /\
  (rp = true -> rp' = true) /\ (rc = true -> rc' = true).

(** [if self.transform: image = self.transform(image)] *)
Definition apply_transform (transform : option Transform) (image : pil_image)
  : result sample :=
  match transform with
  | Some t => t (PIL image)
  | None => Ok (PIL image)
  end.

(** The example world with other lines in invalid-error.txt. *)
Definition example_world' : World :=
  {| files := <[ "info/invalid-error.txt" := TextFile [] ]> (files example_world);
     dirs := dirs example_world |}.

(** The first example sketch, labelled from the photo folders. *)
Definition example_labels : gmap pyval pyval :=
  foldl labels_step ∅ (enumerate (sorted ["ant"; "alarm_clock"])).

(** [s.split('_')[0]] *)
Fixpoint before_underscore (s : string) : string :=
  match s with
  | EmptyString => EmptyString
  | String c r =>
      if Ascii.eqb c "_"%char then EmptyString
      else String c (before_underscore r)
  end.

(** [for x in l: body], threading the variables the body assigns. *)
Fixpoint for_each {A S} (body : S -> A -> result S) (l : list A) (s : S) : result S :=
  match l with
  | [] => Ok s
  | x :: l' => s' <- body s x ;; for_each body l' s'
  end.

(** The body of the loop of [generate_imagenet_id_class_map]. *)
Definition imagenet_step (w : World) (photos_dir : string)
    (d : gmap string string) (folder : string) : result (gmap string string) :=
  names <- listdir w (path_join photos_dir [folder]) ;;
  match names with
  | [] => Raise IndexError
  | file :: _ =>
      let imagenet_id := before_underscore file in
      let d := <[imagenet_id := folder]> d in
      let d := <[folder := imagenet_id]> d in
      Ok d
  end.

(** [generate_imagenet_id_class_map(photos_dir)] *)
Definition generate_imagenet_id_class_map (w : World) (photos_dir : string)
  : result (gmap string string) :=
  let d := ∅ in
  folders <- listdir w photos_dir ;;
  for_each (imagenet_step w photos_dir) folders d.

(** The ImageNet id the loop takes for a folder: from the first file
    listed in it. *)
Definition first_id (w : World) (photos_dir folder : string) : option string :=
  match listdir w (path_join photos_dir [folder]) with
  | Ok (file :: _) => Some (before_underscore file)
  | _ => None
  end.

(** What one round of the loop writes for a folder and its id. *)
Definition put_pair (d : gmap string string) (fi : string * string)
  : gmap string string :=
  <[fst fi := snd fi]> (<[snd fi := fst fi]> d).

(** A world with two photo folders. *)
Definition photo_world : World :=
  {| files := ∅;
     dirs := <[ "photos" := ["ant"; "alarm_clock"] ]>
            (<[ "photos/ant" := ["n02219486_27.jpg"; "n02219486_3.jpg"] ]>
            (<[ "photos/alarm_clock" := ["n02694662_92.jpg"] ]> ∅)) |}.

(** The same with a third, empty folder. *)
Definition photo_world_empty_folder : World :=
  {| files := ∅;
     dirs := <[ "photos" := ["ant"; "bat"; "alarm_clock"] ]>
            (<[ "photos/ant" := ["n02219486_27.jpg"] ]>
            (<[ "photos/bat" := [] ]>
            (<[ "photos/alarm_clock" := ["n02694662_92.jpg"] ]> ∅))) |}.

(** Two 3×1×2 images whose three channels are equal, as a grey image
    converted to RGB has them. *)
Definition grey_images : list tensor3 :=
  [ [[[0%R; 1%R]]; [[0%R; 1%R]]; [[0%R; 1%R]]];
    [[[1%R; 1%R]]; [[1%R; 1%R]]; [[1%R; 1%R]]] ].

(** Every channel of the image is its first channel. *)
Definition grey (c : nat) (t : tensor3) : Prop :=
  forall j, j < c -> nth j t [] = nth 0 t [].

(** Every byte of the image is at most 255. *)
Definition bytes_ok (im : pil_image) : Prop :=
  Forall (Forall (Forall (fun b => (b <= 255)%N))) im.




(** The two cells that follow, for means that are one-dimensional arrays
    and scaling factors that are numbers, as the archive holds them: the
    datasets normalised by mean and scaling factor.  The shuffling
    DataLoaders built on them are not part of the embedding. *)
Definition loading_datasets (w : World) (labels_id_map : gmap pyval pyval)
    (photos : list (pil_image * nat))
    (photos_mean : list R) (photos_scaling : R)
    (sketches_mean : list R) (sketches_scaling : R) : result (Dataset * Dataset) :=
  photos_dataset <-
    ImageFolder photos
      (Some (Compose [ToTensor;
                      Normalize photos_mean
                        [photos_scaling; photos_scaling; photos_scaling]])) ;;
  sketches_dataset <-
    SketchesDataset_init w SKETCHES_DIR INFO_DIR
      (Some (Compose [ToTensor; InvertTransform;
                      Normalize sketches_mean
                        [sketches_scaling; sketches_scaling; sketches_scaling]]))
      remove_error_default remove_ambiguous_default
      remove_pose_default remove_context_default ;;
  let sketches_dataset := SketchesDataset_dataset w labels_id_map sketches_dataset in
  Ok (photos_dataset, sketches_dataset).

(** The notebook world with every sketch flagged as erroneous. *)
Definition all_flagged_world : World :=
  {| files :=
       <[ path_join INFO_DIR ["invalid-error.txt"] := TextFile [] ]>
       (<[ path_join INFO_DIR ["stats.csv"] :=
             CsvFile [ {| Category := "alarm clock"; ImageNetID := "n02694662_92";
                          SketchID := 2; col_Error := 1; col_Ambiguous := 0;
                          col_WrongPose := 0; col_Context := 0 |} ] ]> ∅);
     dirs := ∅ |}.

(** ** Batches *)

Section Batches.

Lemma batch_sampler_concat bs b l :
  concat (batch_sampler bs b l) = b ++ l.
Proof.
  revert b; induction l as [|i l IH]; intros b; simpl.
  - case_decide; simpl; rewrite app_nil_r; [done|].
    destruct b; simpl in *; [done | lia].
  - case_decide; simpl; rewrite IH; by rewrite <- app_assoc.
Qed.

Lemma batch_sampler_nonempty bs b l :
  Forall (fun x => x <> []) (batch_sampler bs b l).
Proof.
  revert b; induction l as [|i l IH]; intros b; simpl.
  - case_decide; [|constructor].
    constructor; [|constructor]. intros ->; simpl in *; lia.
  - case_decide; [constructor|]; auto.
    intros E. by apply app_eq_nil in E as [_ ?].
Qed.

Lemma batch_sampler_bound bs b l n :
  Forall (fun i => i < n) b -> Forall (fun i => i < n) l ->
  Forall (Forall (fun i => i < n)) (batch_sampler bs b l).
Proof.
  revert b; induction l as [|i l IH]; intros b Hb Hl; simpl.
  - case_decide; repeat constructor; done.
  - inversion Hl; subst.
    assert (Forall (fun i => i < n) (b ++ [i])) by (apply Forall_app; auto).
    case_decide; [constructor|]; auto.
Qed.

End Batches.

Lemma has_shape_size c h w t :
  has_shape c h w t -> 0 < c -> 0 < h -> size t = (c, h, w).
Proof.
  intros [Hc Hch] ? ?. unfold size.
  destruct t as [|ch t]; simpl in *; [lia|].
  apply Forall_cons_1 in Hch as [[Hh Hrow] _].
  destruct ch as [|row ch]; simpl in *; [lia|].
  apply Forall_cons_1 in Hrow as [Hw _]. by rewrite Hc, Hh, Hw.
Qed.

(** ** Running the loop on a stored dataset *)

Section Loop.

Context (dataset : Dataset) (imgs : list tensor3) (c h w : nat).
Hypothesis Hstores : stores dataset imgs.
Hypothesis Hshape : Forall (has_shape c h w) imgs.

Lemma fetch_stored idxs :
  Forall (fun i => i < length imgs) idxs ->
  exists its,
    fetch dataset idxs = Ok (its, idxs) /\
    map fst its = map (fun i => Tensor (nth i imgs [])) idxs /\
    forallb is_int (map snd its) = true.
Proof.
  induction 1 as [|i idxs Hi _ (its & Hf & Hfst & Hsnd)]; simpl.
  - by exists [].
  - destruct (lookup_lt_is_Some_2 imgs i Hi) as [t Ht].
    destruct Hstores as [_ Hget]. destruct (Hget i t Ht) as [id Hid].
    exists ((Tensor t, PInt id) :: its).
    unfold read. rewrite Hid. simpl. rewrite Hf. simpl.
    rewrite Hfst, app_nil_r, (nth_lookup_Some _ _ _ _ Ht). done.
Qed.

Lemma mapR_as_tensor (ts : list tensor3) :
  mapR as_tensor (map Tensor ts) = Ok ts.
Proof. induction ts as [|t ts IH]; simpl; [done|]. by rewrite IH. Qed.

Lemma collate_labels_int ls :
  forallb is_int ls = true -> collate_labels ls = Ok tt.
Proof. destruct ls as [|[] ls]; simpl; try done. by intros ->. Qed.

Lemma default_collate_stored its idxs :
  0 < c -> 0 < h ->
  idxs <> [] ->
  Forall (fun i => i < length imgs) idxs ->
  map fst its = map (fun i => Tensor (nth i imgs [])) idxs ->
  forallb is_int (map snd its) = true ->
  default_collate its = Ok (map (fun i => nth i imgs []) idxs).
Proof.
  intros Hc Hh Hne Hlt Hfst Hsnd. unfold default_collate.
  rewrite Hfst, <- (map_map (fun i => nth i imgs []) Tensor), mapR_as_tensor.
  simpl. rewrite (collate_labels_int _ Hsnd).
  assert (Forall (has_shape c h w) (map (fun i => nth i imgs []) idxs)) as Hall.
  { apply Forall_fmap, (Forall_impl _ _ _ Hlt). intros i Hi. simpl.
    destruct (lookup_lt_is_Some_2 imgs i Hi) as [t Ht].
    rewrite (nth_lookup_Some _ _ _ _ Ht).
    eapply Forall_lookup_1; eauto. }
  destruct idxs as [|i idxs]; [done|]. simpl in *.
  rewrite decide_True; [done|].
  inversion Hall as [|?? H1 H2]; subst.
  rewrite (has_shape_size c h w _ H1) by done.
  apply (Forall_impl _ _ _ Hall). intros u Hu. by apply (has_shape_size c h w).
Qed.

(** The loop reads the indices of its batches, in order, and computes
    what [foldR] computes on the images at those indices. *)
Lemma for_batches_stored {S} (body : list tensor3 -> S -> result S) batches s :
  0 < c -> 0 < h ->
  Forall (fun b => b <> []) batches ->
  Forall (Forall (fun i => i < length imgs)) batches ->
  for_batches dataset batches body s =
  match foldR body (map (map (fun i => nth i imgs [])) batches) s with
  | Ok s' => Ok (s', concat batches)
  | Raise e => Raise e
  end.
Proof.
  intros Hc Hh Hne Hlt. revert s.
  induction batches as [|b batches IH]; intros s; simpl; [done|].
  inversion Hne; inversion Hlt; subst.
  destruct (fetch_stored b) as (its & Hf & Hfst & Hsnd); [done|].
  rewrite Hf. simpl.
  rewrite (default_collate_stored its b) by done. simpl.
  destruct (body _ s) as [s'|e]; simpl; [|done].
  rewrite IH by done.
  by destruct (foldR _ _ s').
Qed.

(** The batches of images a DataLoader yields are the dataset cut in
    consecutive pieces. *)
Lemma batches_concat bs :
  concat (map (map (fun i => nth i imgs [])) (batch_sampler bs [] (seq 0 (length imgs))))
  = imgs.
Proof.
  assert (forall (f : nat -> tensor3) (l : list (list nat)),
    concat (map (map f) l) = map f (concat l)) as E.
  { intros f l. induction l as [|x l IH]; simpl; [done|].
    by rewrite map_app, IH. }
  rewrite E, batch_sampler_concat. simpl.
  apply list_eq. intros i.
  rewrite list_lookup_fmap.
  destruct (decide (i < length imgs)) as [Hi|Hi].
  - rewrite lookup_seq_lt by done. simpl.
    destruct (lookup_lt_is_Some_2 imgs i Hi) as [t Ht].
    by rewrite (nth_lookup_Some _ _ _ _ Ht).
  - rewrite lookup_seq_ge by lia. simpl.
    symmetry. apply lookup_ge_None. lia.
Qed.

End Loop.

(** ** Sums of vectors *)

Section Vectors.
Local Open Scope R_scope.

Lemma Rsum_app l1 l2 : Rsum (l1 ++ l2) = Rsum l1 + Rsum l2.
Proof. induction l1 as [|x l1 IH]; simpl; [lra|]. unfold Rsum in *. simpl. rewrite IH. lra. Qed.

Lemma Rsum_concat ls : Rsum (concat ls) = Rsum (map Rsum ls).
Proof.
  induction ls as [|l ls IH]; simpl; [done|].
  rewrite Rsum_app, IH. done.
Qed.

Lemma Rsum_scale {A} (f : A -> R) k (l : list A) :
  Rsum (map (fun x => f x / k) l) = Rsum (map f l) / k.
Proof.
  induction l as [|x l IH]; unfold Rsum in *; simpl; [lra|].
  rewrite IH. lra.
Qed.

Lemma length_vadd u v : length u = length v -> length (vadd u v) = length u.
Proof. intros E. unfold vadd. rewrite length_zip_with. lia. Qed.

Lemma nth_vadd u v j :
  length u = length v -> nth j (vadd u v) 0 = nth j u 0 + nth j v 0.
Proof.
  revert v j; induction u as [|x u IH]; intros [|y v] j E; simpl in *; try lia.
  - destruct j; lra.
  - destruct j; [done|]. apply IH. lia.
Qed.

Lemma vadd_assoc u v w : vadd (vadd u v) w = vadd u (vadd v w).
Proof.
  unfold vadd. revert v w.
  induction u as [|x u IH]; intros [|y v] [|z w]; simpl; try done.
  f_equal; [lra | apply IH].
Qed.

Lemma vadd_zeros u : vadd u (replicate (length u) 0) = u.
Proof.
  unfold vadd. induction u as [|x u IH]; simpl; [done|].
  f_equal; [lra | apply IH].
Qed.

Lemma length_sum0 c vs :
  Forall (fun v => length v = c) vs -> length (sum0 c vs) = c.
Proof.
  induction 1 as [|v vs Hv _ IH]; simpl.
  - by rewrite length_replicate.
  - rewrite length_vadd; lia.
Qed.

Lemma nth_sum0 c vs j :
  Forall (fun v => length v = c) vs ->
  nth j (sum0 c vs) 0 = Rsum (map (fun v => nth j v 0) vs).
Proof.
  induction 1 as [|v vs Hv Hvs IH]; simpl.
  - destruct (decide (j < c)%nat).
    + by rewrite nth_lookup, lookup_replicate_2.
    + rewrite nth_overflow; [done|]. rewrite length_replicate. lia.
  - rewrite nth_vadd, IH; [done|]. by rewrite length_sum0.
Qed.

Lemma list_eq_nth (l : list R) c (f : nat -> R) :
  length l = c -> (forall j, (j < c)%nat -> nth j l 0 = f j) ->
  l = map f (seq 0 c).
Proof.
  intros Hl Hn. apply (nth_ext _ _ 0 0).
  - by rewrite length_map, length_seq.
  - intros j Hj. rewrite Hn by lia.
    rewrite (nth_indep _ 0 (f 0%nat)) by (rewrite length_map, length_seq; lia).
    rewrite (map_nth f). by rewrite seq_nth by lia.
Qed.

Lemma sum0_app c us vs :
  Forall (fun v => length v = c) us -> Forall (fun v => length v = c) vs ->
  sum0 c (us ++ vs) = vadd (sum0 c us) (sum0 c vs).
Proof.
  intros Hu Hv.
  apply (nth_ext _ _ 0 0).
  - rewrite length_vadd; rewrite !length_sum0; try done. by apply Forall_app.
  - intros j _. rewrite nth_vadd by (by rewrite !length_sum0).
    rewrite !nth_sum0; try done; [|by apply Forall_app].
    by rewrite map_app, Rsum_app.
Qed.
End Vectors.

(** ** Views of uniform batches *)

Section View.

Lemma rows_concat k (ls : list (list R)) :
  Forall (fun l => length l = k) ls ->
  rows (length ls) k (concat ls) = ls.
Proof.
  unfold rows. induction 1 as [|l ls Hl _ IH]; simpl; [done|].
  rewrite take_app_length' by done.
  rewrite drop_app_length' by done.
  by rewrite IH.
Qed.

Lemma concat_concat {A} (t : list (list (list A))) :
  concat (concat t) = concat (map (@concat A) t).
Proof.
  induction t as [|ch t IH]; simpl; [done|].
  by rewrite concat_app, IH.
Qed.

Lemma length_concat_uniform {A} k (ls : list (list A)) :
  Forall (fun l => length l = k) ls -> length (concat ls) = length ls * k.
Proof.
  induction 1 as [|l ls Hl _ IH]; simpl; [done|].
  rewrite length_app, IH, Hl. lia.
Qed.

Context (c h w : nat).

Lemma has_shape_channels t :
  has_shape c h w t -> Forall (fun l => length l = h * w) (map (@concat R) t).
Proof.
  intros [_ Hch]. apply Forall_fmap, (Forall_impl _ _ _ Hch).
  intros ch [Hh Hrow]. simpl. rewrite (length_concat_uniform w) by done.
  by rewrite Hh.
Qed.

Lemma has_shape_numel t : has_shape c h w t -> numel t = c * (h * w).
Proof.
  intros Ht. unfold numel, flat. rewrite concat_concat.
  rewrite (length_concat_uniform (h * w)) by by apply has_shape_channels.
  destruct Ht as [Hc _]. by rewrite length_map, Hc.
Qed.

Lemma sum_numel batch :
  Forall (has_shape c h w) batch ->
  sum_list (map numel batch) = length batch * (c * (h * w)).
Proof.
  induction 1 as [|t batch Ht _ IH]; simpl; [done|].
  rewrite IH, (has_shape_numel t) by done. lia.
Qed.

(** On a batch of c×h×w images [view(batch_samples, c, -1)] flattens
    every channel. *)
Lemma view_uniform batch :
  0 < c -> batch <> [] ->
  Forall (has_shape c h w) batch ->
  view batch (size0 batch) c = Ok (map (map (@concat R)) batch).
Proof.
  intros Hc Hne Hall. unfold view, size0.
  rewrite (sum_numel batch Hall).
  assert (0 < length batch) by (destruct batch; simpl; [done|lia]).
  replace (length batch * (c * (h * w))) with ((h * w) * (length batch * c)) by lia.
  rewrite Nat.Div0.mod_mul, Nat.div_mul by lia.
  rewrite decide_True by (split; [lia|done]).
  f_equal. apply map_ext_Forall, (Forall_impl _ _ _ Hall).
  intros t Ht. unfold flat. rewrite concat_concat.
  destruct Ht as [Hc' Hch].
  rewrite <- Hc', <- (length_map (@concat R) t).
  apply rows_concat, (has_shape_channels t). by split.
Qed.

Lemma size1_uniform batch :
  batch <> [] -> Forall (has_shape c h w) batch -> size1 batch = c.
Proof.
  intros Hne Hall. destruct batch as [|t batch]; [done|].
  inversion Hall as [|?? [Hc _] _]; subst. done.
Qed.

End View.

(** ** Loops that add one vector per image *)

Section Accumulate.

Context (P : tensor3 -> Prop) (g : tensor3 -> list R) (n : nat).
Context (body : list tensor3 -> pynum -> result pynum).
Hypothesis Hg : forall t, P t -> length (g t) = n.
Hypothesis Hbody : forall b acc,
  b <> [] -> Forall P b -> body b acc = iadd acc (sum0 n (map g b)).

Lemma Forall_length_g (l : list tensor3) :
  Forall P l -> Forall (fun v => length v = n) (map g l).
Proof.
  intros Hl. apply Forall_fmap. eapply Forall_impl; [eassumption|].
  intros t Ht. by apply Hg.
Qed.

Lemma accumulate_vector batches u :
  length u = n ->
  Forall (fun b => b <> []) batches ->
  Forall (Forall P) batches ->
  foldR body batches (Vector u) =
  Ok (Vector (vadd u (sum0 n (map g (concat batches))))).
Proof.
  intros Hu Hne Hall. revert u Hu.
  induction batches as [|b batches IH]; intros u Hu; simpl.
  - by rewrite <- Hu, vadd_zeros.
  - apply Forall_cons_1 in Hne as [? ?]. apply Forall_cons_1 in Hall as [? ?].
    assert (Forall (fun v => length v = n) (map g b)) as Hb
      by by apply Forall_length_g.
    assert (Forall (fun v => length v = n) (map g (concat batches))) as Hr
      by by apply Forall_length_g, Forall_concat.
    rewrite Hbody by done. simpl.
    rewrite decide_True by (by rewrite length_sum0).
    simpl. rewrite IH; try done.
    2:{ rewrite length_vadd; [done|]. by rewrite length_sum0. }
    by rewrite map_app, sum0_app, vadd_assoc.
Qed.

Lemma accumulate batches :
  batches <> [] ->
  Forall (fun b => b <> []) batches ->
  Forall (Forall P) batches ->
  foldR body batches (Scalar 0) =
  Ok (Vector (sum0 n (map g (concat batches)))).
Proof.
  intros Hne0 Hne Hall. destruct batches as [|b batches]; [done|].
  apply Forall_cons_1 in Hne as [? ?]. apply Forall_cons_1 in Hall as [? ?]. simpl.
  rewrite Hbody by done. simpl.
  assert (Forall (fun v => length v = n) (map g b)) as Hb
    by by apply Forall_length_g.
  assert (Forall (fun v => length v = n) (map g (concat batches))) as Hr
    by by apply Forall_length_g, Forall_concat.
  rewrite (map_ext _ id) by (intros x; unfold id; lra).
  rewrite map_id.
  rewrite accumulate_vector; try done; [|by rewrite length_sum0].
  by rewrite map_app, sum0_app.
Qed.

End Accumulate.

(** ** dataset_mean on a uniform dataset *)

Section Mean.

Context (c h w : nat).
Hypothesis Hc : 0 < c.
Hypothesis Hh : 0 < h.
Hypothesis Hw : 0 < w.

Lemma length_chan_means t : has_shape c h w t -> length (chan_means t) = c.
Proof. intros [E _]. unfold chan_means. by rewrite length_map. Qed.

Lemma mean_body_uniform batch acc :
  batch <> [] -> Forall (has_shape c h w) batch ->
  mean_body batch acc = iadd acc (sum0 c (map chan_means batch)).
Proof.
  intros Hne Hall. unfold mean_body.
  rewrite (size1_uniform c h w) by done.
  rewrite (view_uniform c h w) by done. simpl.
  do 2 f_equal. rewrite map_map. apply map_ext. intros t.
  unfold chan_means. by rewrite map_map.
Qed.

Lemma mean_fold batches :
  batches <> [] ->
  Forall (fun b => b <> []) batches ->
  Forall (Forall (has_shape c h w)) batches ->
  foldR mean_body batches (Scalar 0) =
  Ok (Vector (sum0 c (map chan_means (concat batches)))).
Proof.
  apply (accumulate (has_shape c h w)).
  - apply length_chan_means.
  - intros b acc. apply mean_body_uniform.
Qed.

(** The sum of the per-image channel means, divided by the number of
    images, is the mean of the channel. *)
Lemma mean_of_means imgs :
  imgs <> [] ->
  Forall (has_shape c h w) imgs ->
  map (fun x => x / INR (length imgs))%R (sum0 c (map chan_means imgs))
  = mean_ref c h w imgs.
Proof.
  intros Hne Hall.
  assert (Forall (fun v => length v = c) (map chan_means imgs)) as Hb.
  { apply Forall_fmap. eapply Forall_impl; [eassumption|].
    intros t Ht. by apply length_chan_means. }
  apply list_eq_nth.
  - by rewrite length_map, length_sum0.
  - intros j Hj.
    rewrite (nth_indep _ 0%R (0 / INR (length imgs))%R)
      by (rewrite length_map, length_sum0; done).
    rewrite (map_nth (fun x => x / INR (length imgs))%R).
    rewrite nth_sum0 by done.
    unfold channel_pixels. rewrite Rsum_concat, !map_map.
    assert (length imgs <> 0) by (destruct imgs; simpl; [done|lia]).
    rewrite !mult_INR.
    assert (INR (length imgs) <> 0)%R by (apply not_0_INR; lia).
    assert (INR h <> 0)%R by (apply not_0_INR; lia).
    assert (INR w <> 0)%R by (apply not_0_INR; lia).
    erewrite (map_ext_Forall _ (fun t => Rsum (concat (nth j t [])) / (INR h * INR w))%R).
    + rewrite (Rsum_scale (fun t => Rsum (concat (nth j t [])))). field. done.
    + eapply Forall_impl; [eassumption|]. intros t Ht. simpl.
      unfold chan_means.
      rewrite (nth_indep _ 0%R (mean_row (concat [])))
        by (rewrite length_map; destruct Ht as [Ht1 _]; lia).
      rewrite (map_nth (fun ch => mean_row (concat ch))).
      unfold mean_row. f_equal.
      destruct Ht as [Ht1 Ht2].
      assert (j < length t) as Hjt by lia.
      destruct (lookup_lt_is_Some_2 t j Hjt) as [ch Hch].
      rewrite (nth_lookup_Some _ _ _ _ Hch).
      destruct (Forall_lookup_1 _ _ _ _ Ht2 Hch) as [E1 E2].
      rewrite (length_concat_uniform w) by done.
      by rewrite E1, mult_INR.
Qed.

End Mean.

(** ** dataset_std on a uniform dataset *)

Section Std.

Context (c h w : nat) (mean : list R).
Hypothesis Hc : 0 < c.

Lemma sub_broadcast_ok chans :
  length chans = c -> bc_ok c (length mean) ->
  exists d, sub_broadcast chans mean = Ok d /\ length d = bc_len c (length mean).
Proof.
  intros Hl Hok. unfold sub_broadcast, bc_len. rewrite Hl.
  repeat case_decide; try (eexists; split; [done|]).
  - rewrite length_zip_with. lia.
  - by rewrite length_map.
  - by rewrite length_map.
  - exfalso. unfold bc_ok in Hok. lia.
Qed.

Lemma sub_broadcast_fail chans :
  length chans = c -> ~ bc_ok c (length mean) ->
  sub_broadcast chans mean = Raise RuntimeError.
Proof.
  intros Hl Hok. unfold sub_broadcast, bc_ok in *. rewrite Hl.
  repeat case_decide; try done; exfalso; apply Hok; auto.
Qed.

Lemma mapR_ok {A B} (f : A -> result B) (g : A -> B) (l : list A) :
  Forall (fun x => f x = Ok (g x)) l -> mapR f l = Ok (map g l).
Proof.
  induction 1 as [|x l Hx _ IH]; simpl; [done|]. by rewrite Hx, IH.
Qed.

Lemma length_sqdev t :
  has_shape c h w t -> bc_ok c (length mean) ->
  length (sqdev mean t) = bc_len c (length mean).
Proof.
  intros [Ht _] Hok. unfold sqdev.
  destruct (sub_broadcast_ok (map (@concat R) t)) as (d & -> & Hd);
    [by rewrite length_map|done|].
  simpl. by rewrite !length_map.
Qed.

Lemma std_body_uniform batch acc :
  bc_ok c (length mean) ->
  batch <> [] -> Forall (has_shape c h w) batch ->
  std_body c (Vector mean) batch acc =
  iadd acc (sum0 (bc_len c (length mean)) (map (sqdev mean) batch)).
Proof.
  intros Hok Hne Hall. unfold std_body.
  rewrite (view_uniform c h w) by done. simpl.
  rewrite (mapR_ok _ (fun im => from_result [] (sub_broadcast im mean))).
  - simpl. f_equal. f_equal.
    + destruct batch as [|t batch]; [done|]. simpl.
      apply Forall_cons_1 in Hall as [Ht _].
      rewrite <- (length_sqdev t) by done. unfold sqdev.
      by rewrite !length_map.
    + rewrite !map_map. apply map_ext. intros t. unfold sqdev.
      by rewrite !map_map.
  - apply Forall_fmap. eapply Forall_impl; [eassumption|].
    intros t [Ht _]. simpl.
    destruct (sub_broadcast_ok (map (@concat R) t)) as (d & -> & Hd);
      [by rewrite length_map|done|done].
Qed.

Lemma std_body_fail batch acc :
  ~ bc_ok c (length mean) ->
  batch <> [] -> Forall (has_shape c h w) batch ->
  std_body c (Vector mean) batch acc = Raise RuntimeError.
Proof.
  intros Hok Hne Hall. unfold std_body.
  rewrite (view_uniform c h w) by done. simpl.
  destruct batch as [|t batch]; [done|]. simpl.
  apply Forall_cons_1 in Hall as [[Ht _] _].
  rewrite sub_broadcast_fail; [done| |done]. by rewrite length_map.
Qed.

Lemma std_fold batches :
  bc_ok c (length mean) ->
  batches <> [] ->
  Forall (fun b => b <> []) batches ->
  Forall (Forall (has_shape c h w)) batches ->
  foldR (std_body c (Vector mean)) batches (Scalar 0) =
  Ok (Vector (sum0 (bc_len c (length mean)) (map (sqdev mean) (concat batches)))).
Proof.
  intros Hok. apply (accumulate (has_shape c h w)).
  - intros t Ht. by apply length_sqdev.
  - intros b acc. by apply std_body_uniform.
Qed.

Lemma std_fold_fail batches :
  ~ bc_ok c (length mean) ->
  batches <> [] ->
  Forall (fun b => b <> []) batches ->
  Forall (Forall (has_shape c h w)) batches ->
  foldR (std_body c (Vector mean)) batches (Scalar 0) = Raise RuntimeError.
Proof.
  intros Hok Hne0 Hne Hall. destruct batches as [|b batches]; [done|].
  apply Forall_cons_1 in Hne as [? ?]. apply Forall_cons_1 in Hall as [? ?].
  simpl. by rewrite std_body_fail.
Qed.

Lemma std_fold_scalar x batches :
  batches <> [] ->
  Forall (fun b => b <> []) batches ->
  Forall (Forall (has_shape c h w)) batches ->
  foldR (std_body c (Scalar x)) batches (Scalar 0) = Raise AttributeError.
Proof.
  intros Hne0 Hne Hall. destruct batches as [|b batches]; [done|].
  apply Forall_cons_1 in Hne as [? ?]. apply Forall_cons_1 in Hall as [? ?].
  simpl. unfold std_body. by rewrite (view_uniform c h w).
Qed.

End Std.

(** ** The reference standard deviation *)

Section StdRef.

Context (c h w : nat) (mean : list R).
Hypothesis Hc : 0 < c.
Hypothesis Hh : 0 < h.
Hypothesis Hw : 0 < w.
Hypothesis Hmean : length mean = c.

Lemma nth_sqdev t j :
  has_shape c h w t -> j < c ->
  nth j (sqdev mean t) 0%R =
  Rsum (map (fun x => (x - nth j mean 0) ^ 2)%R (concat (nth j t []))).
Proof.
  intros [Ht _] Hj. unfold sqdev, sub_broadcast.
  rewrite decide_True by (rewrite length_map; lia). simpl.
  assert (j < length t) as Hjt by lia.
  assert (j < length mean) as Hjm by lia.
  destruct (lookup_lt_is_Some_2 t j Hjt) as [ch Hch].
  destruct (lookup_lt_is_Some_2 mean j Hjm) as [m Hm].
  rewrite (nth_lookup_Some _ _ _ _ Hch), (nth_lookup_Some _ _ _ _ Hm).
  apply nth_lookup_Some.
  rewrite !list_lookup_fmap, lookup_zip_with, list_lookup_fmap, Hch, Hm.
  simpl. by rewrite map_map.
Qed.

Lemma Rsum_map_concat {A} (f : A -> R) (ls : list (list A)) :
  Rsum (map f (concat ls)) = Rsum (map (fun l => Rsum (map f l)) ls).
Proof.
  induction ls as [|l ls IH]; simpl; [done|].
  by rewrite map_app, Rsum_app, IH.
Qed.

Lemma std_of_sqdev imgs :
  Forall (has_shape c h w) imgs ->
  map (fun x => sqrt (x / INR (length imgs * h * w)))
      (sum0 c (map (sqdev mean) imgs))
  = std_ref c h w mean imgs.
Proof.
  intros Hall.
  assert (Forall (fun v => length v = c) (map (sqdev mean) imgs)) as Hb.
  { apply Forall_fmap. eapply Forall_impl; [eassumption|].
    intros t Ht. simpl. rewrite (length_sqdev c h w) by (unfold bc_ok; auto).
    unfold bc_len. by rewrite decide_True. }
  apply list_eq_nth.
  - by rewrite length_map, length_sum0.
  - intros j Hj.
    rewrite (nth_indep _ 0%R (sqrt (0 / INR (length imgs * h * w))))
      by (rewrite length_map, length_sum0; done).
    rewrite (map_nth (fun x => sqrt (x / INR (length imgs * h * w)))).
    rewrite nth_sum0 by done.
    do 2 f_equal. unfold channel_pixels.
    rewrite Rsum_map_concat, !map_map.
    f_equal. apply map_ext_Forall. eapply Forall_impl; [eassumption|].
    intros t Ht. simpl. by apply nth_sqdev.
Qed.

End StdRef.

(** ** Running minimum and maximum *)

Section MinMax.

Local Open Scope R_scope.

Lemma Rmaximum_Rmax x a l : Rmaximum (Rmax x a) l = Rmax x (Rmaximum a l).
Proof.
  unfold Rmaximum. induction l as [|y l IH]; simpl; [done|].
  rewrite IH, !Rmax_assoc, (Rmax_comm y x). done.
Qed.

Lemma Rminimum_Rmin x a l : Rminimum (Rmin x a) l = Rmin x (Rminimum a l).
Proof.
  unfold Rminimum. induction l as [|y l IH]; simpl; [done|].
  rewrite IH, !Rmin_assoc, (Rmin_comm y x). done.
Qed.

Lemma Rmaximum_app a l1 l2 :
  Rmaximum a (l1 ++ l2) = Rmaximum (Rmaximum a l1) l2.
Proof.
  induction l1 as [|x l1 IH]; simpl; [done|].
  change (Rmaximum a (x :: l1 ++ l2)) with (Rmax x (Rmaximum a (l1 ++ l2))).
  change (Rmaximum a (x :: l1)) with (Rmax x (Rmaximum a l1)).
  by rewrite IH, Rmaximum_Rmax.
Qed.

Lemma Rminimum_app a l1 l2 :
  Rminimum a (l1 ++ l2) = Rminimum (Rminimum a l1) l2.
Proof.
  induction l1 as [|x l1 IH]; simpl; [done|].
  change (Rminimum a (x :: l1 ++ l2)) with (Rmin x (Rminimum a (l1 ++ l2))).
  change (Rminimum a (x :: l1)) with (Rmin x (Rminimum a l1)).
  by rewrite IH, Rminimum_Rmin.
Qed.

Lemma Rmaximum_step a x l : Rmax a (Rmaximum x l) = Rmaximum a (x :: l).
Proof.
  change (Rmaximum a (x :: l)) with (Rmax x (Rmaximum a l)).
  by rewrite <- !Rmaximum_Rmax, Rmax_comm.
Qed.

Lemma Rminimum_step a x l : Rmin a (Rminimum x l) = Rminimum a (x :: l).
Proof.
  change (Rminimum a (x :: l)) with (Rmin x (Rminimum a l)).
  by rewrite <- !Rminimum_Rmin, Rmin_comm.
Qed.

Lemma Rmaximum_is_max x l : is_max (Rmaximum x l) (x :: l).
Proof.
  unfold Rmaximum. induction l as [|y l [IHin IHle]]; simpl.
  - split; [by left|]. intros z [<-|[]]. lra.
  - split.
    + apply Rmax_case; [right; by left|].
      destruct IHin as [<-|?]; [by left | by right; right].
    + intros z Hz.
      assert (y = z \/ In z (x :: l)) as [<-|Hz'] by (simpl in *; tauto).
      * apply Rmax_l.
      * etrans; [by apply IHle | apply Rmax_r].
Qed.

Lemma Rminimum_is_min x l : is_min (Rminimum x l) (x :: l).
Proof.
  unfold Rminimum. induction l as [|y l [IHin IHle]]; simpl.
  - split; [by left|]. intros z [<-|[]]. lra.
  - split.
    + apply Rmin_case; [right; by left|].
      destruct IHin as [<-|?]; [by left | by right; right].
    + intros z Hz.
      assert (y = z \/ In z (x :: l)) as [<-|Hz'] by (simpl in *; tauto).
      * apply Rmin_l.
      * etrans; [apply Rmin_r | by apply IHle].
Qed.

(** Starting the scan at 1 and -1 does not change the scaling factor. *)
Lemma scaling_init lo hi :
  lo <= hi ->
  Rmax (Rabs (Rmin 1 lo)) (Rabs (Rmax (-1) hi)) = Rmax (Rabs lo) (Rabs hi).
Proof.
  intros Hle. unfold Rmax, Rmin, Rabs.
  repeat (destruct (Rle_dec _ _)); repeat (destruct (Rcase_abs _)); lra.
Qed.

End MinMax.

(** ** dataset_scaling on a uniform dataset *)

Section Scaling.

Context (c h w : nat).
Hypothesis Hc : 0 < c.
Hypothesis Hh : 0 < h.
Hypothesis Hw : 0 < w.

Lemma all_pixels_app l1 l2 : all_pixels (l1 ++ l2) = all_pixels l1 ++ all_pixels l2.
Proof. unfold all_pixels. by rewrite map_app, concat_app. Qed.

Lemma viewed_pixels (batch : list tensor3) :
  concat (concat (map (map (@concat R)) batch)) = all_pixels batch.
Proof.
  unfold all_pixels. induction batch as [|t batch IH]; simpl; [done|].
  rewrite concat_app, IH. unfold flat. by rewrite concat_concat.
Qed.

Lemma length_all_pixels batch :
  Forall (has_shape c h w) batch ->
  length (all_pixels batch) = length batch * (c * (h * w)).
Proof.
  intros Hall. unfold all_pixels.
  rewrite <- (sum_numel c h w) by done.
  induction batch as [|t batch IH]; simpl; [done|].
  apply Forall_cons_1 in Hall as [_ ?].
  rewrite length_app, IH by done. done.
Qed.

Lemma scaling_body_uniform batch lo hi :
  batch <> [] -> Forall (has_shape c h w) batch ->
  scaling_body batch (lo, hi) =
  Ok (Rminimum lo (all_pixels batch), Rmaximum hi (all_pixels batch)).
Proof.
  intros Hne Hall. unfold scaling_body.
  rewrite (size1_uniform c h w) by done.
  rewrite (view_uniform c h w) by done. simpl.
  rewrite viewed_pixels.
  assert (0 < length (all_pixels batch)) as Hlen.
  { rewrite length_all_pixels by done.
    destruct batch; simpl; [done|]. nia. }
  destruct (all_pixels batch) as [|x l]; simpl in Hlen; [lia|]. simpl.
  by rewrite Rmaximum_step, Rminimum_step.
Qed.

Lemma scaling_fold batches lo hi :
  Forall (fun b => b <> []) batches ->
  Forall (Forall (has_shape c h w)) batches ->
  foldR scaling_body batches (lo, hi) =
  Ok (Rminimum lo (all_pixels (concat batches)),
      Rmaximum hi (all_pixels (concat batches))).
Proof.
  intros Hne Hall. revert lo hi.
  induction batches as [|b batches IH]; intros lo hi; [done|].
  apply Forall_cons_1 in Hne as [? ?]. apply Forall_cons_1 in Hall as [? ?].
  cbn [foldR concat].
  rewrite scaling_body_uniform by done. cbn [rbind].
  rewrite IH by done.
  by rewrite all_pixels_app, Rminimum_app, Rmaximum_app.
Qed.

End Scaling.

(** ** The loop on a stored dataset of uniform shape *)

Section Stored.

Context (dataset : Dataset) (imgs : list tensor3) (c h w : nat).
Hypothesis Hstores : stores dataset imgs.
Hypothesis Hshape : Forall (has_shape c h w) imgs.
Hypothesis Hc : 0 < c.
Hypothesis Hh : 0 < h.
Hypothesis Hw : 0 < w.

Lemma image_batches_concat bs : concat (image_batches imgs bs) = imgs.
Proof. apply batches_concat. Qed.

Lemma image_batches_nonempty bs : Forall (fun b => b <> []) (image_batches imgs bs).
Proof.
  apply Forall_fmap.
  eapply Forall_impl; [apply batch_sampler_nonempty|].
  intros b Hb. simpl. by destruct b.
Qed.

Lemma image_batches_shape bs : Forall (Forall (has_shape c h w)) (image_batches imgs bs).
Proof.
  assert (Forall (has_shape c h w) (concat (image_batches imgs bs))) as H
    by by rewrite image_batches_concat.
  revert H. generalize (image_batches imgs bs). intros l.
  induction l as [|b l IH]; simpl; [constructor|].
  rewrite Forall_app. intros [? ?]. constructor; auto.
Qed.

Lemma image_batches_nil bs : imgs <> [] -> image_batches imgs bs <> [].
Proof.
  intros Hne E. apply Hne. by rewrite <- (image_batches_concat bs), E.
Qed.

Lemma iterate_stored {S} (body : list tensor3 -> S -> result S) s bs :
  for_batches dataset (batch_sampler bs [] (seq 0 (len dataset))) body s =
  match foldR body (image_batches imgs bs) s with
  | Ok s' => Ok (s', seq 0 (length imgs))
  | Raise e => Raise e
  end.
Proof.
  destruct Hstores as [Hlen _]. rewrite Hlen.
  rewrite (for_batches_stored dataset imgs c h w); try done.
  - fold (image_batches imgs bs). destruct (foldR _ _ _); [|done].
    by rewrite batch_sampler_concat.
  - apply batch_sampler_nonempty.
  - apply batch_sampler_bound; [constructor|].
    apply Forall_forall. intros i Hi. apply elem_of_seq in Hi. lia.
Qed.

Lemma dataset_mean_run bs :
  imgs <> [] -> 0 < bs ->
  dataset_mean dataset bs = Ok (Vector (mean_ref c h w imgs), seq 0 (length imgs)).
Proof.
  intros Hne Hbs. unfold dataset_mean, DataLoader, iterate.
  rewrite decide_False by lia. simpl.
  rewrite iterate_stored.
  rewrite (mean_fold c h w); try done.
  - simpl. rewrite image_batches_concat.
    destruct Hstores as [-> _].
    rewrite (mean_of_means c h w) by done.
    by rewrite !app_nil_r.
  - by apply image_batches_nil.
  - apply image_batches_nonempty.
  - apply image_batches_shape.
Qed.

Lemma read_first :
  imgs <> [] ->
  exists t id, read dataset 0 = Ok ((Tensor t, PInt id), [0]) /\ size t = (c, h, w).
Proof.
  intros Hne.
  assert (0 < length imgs) as Hlen.
  { destruct (decide (length imgs = 0)) as [E|]; [|lia].
    by apply nil_length_inv in E. }
  destruct (lookup_lt_is_Some_2 imgs 0 Hlen) as [t Ht].
  destruct Hstores as [_ Hget]. destruct (Hget 0 t Ht) as [id Hid].
  exists t, id. unfold read. rewrite Hid. split; [done|].
  apply (has_shape_size c h w); try done.
  by apply (Forall_lookup_1 _ _ _ _ Hshape Ht).
Qed.

Lemma dataset_std_run mean bs :
  imgs <> [] -> 0 < bs ->
  dataset_std dataset (Vector mean) bs =
  if decide (bc_ok c (length mean)) then
    Ok (map (fun x => sqrt (x / INR (length imgs * h * w)))
          (sum0 (bc_len c (length mean)) (map (sqdev mean) imgs)),
        0 :: seq 0 (length imgs))
  else Raise RuntimeError.
Proof.
  intros Hne Hbs. unfold dataset_std.
  destruct (read_first Hne) as (t & id & -> & Hsize). simpl.
  unfold size in Hsize. injection Hsize as -> -> ->. unfold DataLoader, iterate.
  rewrite decide_False by lia. simpl.
  rewrite iterate_stored.
  case_decide.
  - rewrite (std_fold c h w); try done.
    + simpl. rewrite image_batches_concat.
      destruct Hstores as [-> _]. by rewrite !app_nil_r.
    + by apply image_batches_nil.
    + apply image_batches_nonempty.
    + by apply image_batches_shape.
  - rewrite (std_fold_fail c h w); try done.
    + by apply image_batches_nil.
    + apply image_batches_nonempty.
    + by apply image_batches_shape.
Qed.

Lemma dataset_scaling_run bs :
  0 < bs ->
  dataset_scaling dataset bs =
  Ok (Rmax (Rabs (Rminimum 1 (all_pixels imgs))) (Rabs (Rmaximum (-1) (all_pixels imgs))),
      seq 0 (length imgs)).
Proof.
  intros Hbs. unfold dataset_scaling, DataLoader, iterate.
  rewrite decide_False by lia. cbn [lift bind dl_dataset dl_batches].
  rewrite iterate_stored.
  rewrite (scaling_fold c h w); try done.
  - rewrite image_batches_concat. simpl. by rewrite !app_nil_r.
  - apply image_batches_nonempty.
  - apply image_batches_shape.
Qed.

Lemma dataset_std_run_scalar x bs :
  imgs <> [] -> 0 < bs ->
  dataset_std dataset (Scalar x) bs = Raise AttributeError.
Proof.
  intros Hne Hbs. unfold dataset_std.
  destruct (read_first Hne) as (t & id & -> & Hsize). simpl.
  unfold size in Hsize. injection Hsize as -> -> ->. unfold DataLoader, iterate.
  rewrite decide_False by lia. simpl.
  rewrite iterate_stored.
  rewrite (std_fold_scalar c h w); try done.
  - by apply image_batches_nil.
  - apply image_batches_nonempty.
  - by apply image_batches_shape.
Qed.

End Stored.

(** * The statistics functions: what they return *)

Lemma of_tensors_stores imgs : stores (of_tensors imgs) imgs.
Proof.
  split; [done|]. intros i t Ht. exists 0. simpl. by rewrite Ht.
Qed.

Lemma two_images_shape : Forall (has_shape 1 1 2) two_images.
Proof. repeat (constructor || split). Qed.

(** C1: on a non-empty dataset of C×H×W tensors, [dataset_mean] returns,
    for every channel, the sum of all pixel values of that channel over
    the whole dataset divided by N·H·W. *)
Theorem dataset_mean_correct (dataset : Dataset) (imgs : list tensor3)
    (c h w batch_size : nat) :
  stores dataset imgs ->
  Forall (has_shape c h w) imgs ->
  imgs <> [] ->
  0 < c -> 0 < h -> 0 < w ->
  0 < batch_size ->
  value (dataset_mean dataset batch_size) = Ok (Vector (mean_ref c h w imgs)).
Proof.
  intros. by rewrite (dataset_mean_run dataset imgs c h w).
Qed.

Lemma dataset_mean_correct_witness :
  value (dataset_mean (of_tensors two_images) 1)
  = Ok (Vector (mean_ref 1 1 2 two_images)).
Proof.
  apply (dataset_mean_correct (of_tensors two_images) two_images 1 1 2 1).
  - apply of_tensors_stores.
  - apply two_images_shape.
  - discriminate.
  - lia.
  - lia.
  - lia.
  - lia.
Defined.

(** C2: on a non-empty dataset of C×H×W tensors and a vector [mean] with
    one entry per channel, [dataset_std] returns, for every channel, the
    square root of the sum of the squared deviations of all pixels of that
    channel from its entry of [mean], divided by N·H·W, with H and W those
    of the first item. *)
Theorem dataset_std_correct (dataset : Dataset) (imgs : list tensor3)
    (mean : list R) (c h w batch_size : nat) :
  stores dataset imgs ->
  Forall (has_shape c h w) imgs ->
  imgs <> [] ->
  0 < c -> 0 < h -> 0 < w ->
  length mean = c ->
  0 < batch_size ->
  size (nth 0 imgs []) = (c, h, w) /\
  value (dataset_std dataset (Vector mean) batch_size) = Ok (std_ref c h w mean imgs).
Proof.
  intros Hst Hsh Hne Hc Hh Hw Hm Hbs. split.
  - apply (has_shape_size c h w); try done.
    destruct imgs as [|t imgs']; [done|]. simpl.
    by apply Forall_cons_1 in Hsh as [? _].
  - rewrite (dataset_std_run dataset imgs c h w) by done.
    rewrite decide_True by (left; done).
    unfold bc_len. rewrite decide_True by done. simpl.
    by rewrite (std_of_sqdev c h w mean).
Qed.

Lemma dataset_std_correct_witness :
  size (nth 0 two_images []) = (1, 1, 2) /\
  value (dataset_std (of_tensors two_images) (Vector [1%R]) 1)
  = Ok (std_ref 1 1 2 [1%R] two_images).
Proof.
  apply (dataset_std_correct (of_tensors two_images) two_images [1%R] 1 1 2 1).
  - apply of_tensors_stores.
  - apply two_images_shape.
  - discriminate.
  - lia.
  - lia.
  - lia.
  - reflexivity.
  - lia.
Defined.

(** C3 as stated fails on datasets it does not exclude.  Images of
    different sizes cannot be stacked into one batch: [dataset_scaling]
    raises [RuntimeError].  On a dataset whose pixels are all 0 the factor
    returned is 0, and [Normalize], by which the notebook divides by it,
    refuses a zero in [std]. *)
Lemma dataset_scaling_fails :
  ragged_images <> [] /\
  value (dataset_scaling (of_tensors ragged_images) default_batch_size)
    = Raise RuntimeError /\
  black_images <> [] /\
  value (dataset_scaling (of_tensors black_images) default_batch_size) = Ok 0%R /\
  (forall mean t, Normalize mean [0; 0; 0]%R (Tensor t) = Raise ValueError).
Proof.
  split; [done|]. split; [|split; [done|split]].
  - unfold dataset_scaling, DataLoader, iterate. simpl.
    unfold default_collate. simpl. reflexivity.
  - unfold dataset_scaling, DataLoader, iterate. simpl.
    unfold scaling_body, view. simpl. f_equal.
    assert (Rmin 0 0 = 0)%R as E1 by (apply Rmin_left; lra).
    assert (Rmax 0 0 = 0)%R as E2 by (apply Rmax_left; lra).
    rewrite !E1, !E2.
    rewrite (Rmin_right 1 0), (Rmax_right (-1) 0) by lra.
    by rewrite Rabs_R0.
  - intros mean t. unfold Normalize.
    rewrite decide_True; [done|]. by left.
Qed.

(** C3, amended: on a non-empty dataset whose items all have one shape
    C×H×W, [dataset_scaling], whose scan starts from the minimum 1 and the
    maximum -1, returns s = max(|lo|, |hi|) for the least pixel value lo
    and the greatest hi of the whole dataset; every pixel x has |x| <= s;
    s is 0 exactly when every pixel is 0; and when s is not 0, x / s lies
    in [-1, 1]. *)
Theorem dataset_scaling_correct (dataset : Dataset) (imgs : list tensor3)
    (c h w batch_size : nat) :
  stores dataset imgs ->
  Forall (has_shape c h w) imgs ->
  imgs <> [] ->
  0 < c -> 0 < h -> 0 < w ->
  0 < batch_size ->
  exists lo hi s,
    is_min lo (all_pixels imgs) /\
    is_max hi (all_pixels imgs) /\
    s = Rmax (Rabs lo) (Rabs hi) /\
    value (dataset_scaling dataset batch_size) = Ok s /\
    (forall x, In x (all_pixels imgs) -> (Rabs x <= s)%R) /\
    (s = 0%R <-> forall x, In x (all_pixels imgs) -> x = 0%R) /\
    (s <> 0%R -> forall x, In x (all_pixels imgs) -> (-1 <= x / s <= 1)%R).
Proof.
  intros Hst Hsh Hne Hc Hh Hw Hbs.
  assert (0 < length (all_pixels imgs)) as Hlen.
  { rewrite (length_all_pixels c h w) by done.
    destruct imgs; simpl; [done|nia]. }
  destruct (all_pixels imgs) as [|x0 px] eqn:Epx; simpl in Hlen; [lia|].
  pose proof (Rminimum_is_min x0 px) as Hmin.
  pose proof (Rmaximum_is_max x0 px) as Hmax.
  exists (Rminimum x0 px), (Rmaximum x0 px), (Rmax (Rabs (Rminimum x0 px)) (Rabs (Rmaximum x0 px))).
  split; [done|]. split; [done|]. split; [done|].
  assert (Rminimum x0 px <= Rmaximum x0 px)%R as Hle.
  { destruct Hmax as [Hin _]. destruct Hmin as [_ Hlo]. by apply Hlo. }
  split.
  { rewrite (dataset_scaling_run dataset imgs c h w) by done. simpl.
    rewrite Epx, <- Rminimum_step, <- Rmaximum_step.
    by rewrite scaling_init. }
  destruct Hmin as [Hlo_in Hlo]. destruct Hmax as [Hhi_in Hhi].
  set (lo := Rminimum x0 px) in *. set (hi := Rmaximum x0 px) in *.
  assert (forall x, In x (x0 :: px) -> (Rabs x <= Rmax (Rabs lo) (Rabs hi))%R) as Habs.
  { intros x Hx. specialize (Hlo x Hx). specialize (Hhi x Hx).
    unfold Rmax, Rabs.
    repeat (destruct (Rle_dec _ _)); repeat (destruct (Rcase_abs _)); lra. }
  split; [exact Habs|]. split; [split|].
  - intros Hs x Hx. specialize (Habs x Hx). rewrite Hs in Habs.
    unfold Rabs in Habs. destruct (Rcase_abs x); lra.
  - intros Hz. rewrite (Hz lo Hlo_in), (Hz hi Hhi_in).
    rewrite Rabs_R0. unfold Rmax. destruct (Rle_dec _ _); lra.
  - intros Hs x Hx. specialize (Habs x Hx).
    set (s := Rmax (Rabs lo) (Rabs hi)) in *.
    assert (- s <= x <= s)%R as [H1 H2].
    { clearbody s. unfold Rabs in Habs. destruct (Rcase_abs x); lra. }
    assert (0 < s)%R as Hpos by lra.
    split; apply (Rmult_le_reg_r s); try done;
      unfold Rdiv; rewrite Rmult_assoc, Rinv_l by lra; lra.
Qed.

Lemma dataset_scaling_correct_witness :
  exists lo hi s,
    is_min lo (all_pixels two_images) /\
    is_max hi (all_pixels two_images) /\
    s = Rmax (Rabs lo) (Rabs hi) /\
    value (dataset_scaling (of_tensors two_images) 1) = Ok s /\
    (forall x, In x (all_pixels two_images) -> (Rabs x <= s)%R) /\
    (s = 0%R <-> forall x, In x (all_pixels two_images) -> x = 0%R) /\
    (s <> 0%R -> forall x, In x (all_pixels two_images) -> (-1 <= x / s <= 1)%R).
Proof.
  apply (dataset_scaling_correct (of_tensors two_images) two_images 1 1 2 1).
  - apply of_tensors_stores.
  - apply two_images_shape.
  - discriminate.
  - lia.
  - lia.
  - lia.
  - lia.
Defined.

(** * The pass over the dataset *)

Lemma reads_seq_from a k i :
  reads (seq a k) i = if decide (a <= i < a + k) then 1 else 0.
Proof.
  unfold reads. revert a. induction k as [|k IH]; intros a; simpl.
  - rewrite decide_False by lia. done.
  - destruct (decide (a = i)) as [->|Hne].
    + rewrite filter_cons_True by done. simpl. rewrite IH.
      rewrite decide_False by lia. rewrite decide_True by lia. done.
    + rewrite filter_cons_False by done. rewrite IH.
      repeat case_decide; lia.
Qed.

Lemma reads_seq n i : i < n -> reads (seq 0 n) i = 1.
Proof.
  intros Hi. rewrite reads_seq_from. by rewrite decide_True by lia.
Qed.

(** C6 as stated fails: [dataset_std] reads [dataset[0]] twice. *)
Lemma dataset_std_reads_first_twice :
  trace (dataset_std (of_tensors two_images) (Vector [1%R]) 1) = Some [0; 0; 1] /\
  reads [0; 0; 1] 0 = 2.
Proof.
  split; [|done].
  rewrite (dataset_std_run (of_tensors two_images) two_images 1 1 2);
    try (done || lia).
  - apply of_tensors_stores.
  - apply two_images_shape.
Qed.

(** C6, amended: [dataset_mean] and [dataset_scaling] call [dataset[i]]
    once for every index, in index order; [dataset_std] first reads
    [dataset[0]] for its shape and then makes the same pass.  In the pass
    the loop body runs on consecutive batches that together are the
    dataset, every image in one batch. *)
Theorem single_pass (dataset : Dataset) (imgs : list tensor3) (mean : list R)
    (c h w batch_size : nat) :
  stores dataset imgs ->
  Forall (has_shape c h w) imgs ->
  imgs <> [] ->
  0 < c -> 0 < h -> 0 < w ->
  length mean = c ->
  0 < batch_size ->
  trace (dataset_mean dataset batch_size) = Some (seq 0 (length imgs)) /\
  trace (dataset_scaling dataset batch_size) = Some (seq 0 (length imgs)) /\
  trace (dataset_std dataset (Vector mean) batch_size) = Some (0 :: seq 0 (length imgs)) /\
  (forall i, i < length imgs -> reads (seq 0 (length imgs)) i = 1) /\
  concat (image_batches imgs batch_size) = imgs /\
  forall S (body : list tensor3 -> S -> result S) (s : S),
    (dl <~ lift (DataLoader dataset batch_size) ;; iterate dl body s) =
    match foldR body (image_batches imgs batch_size) s with
    | Ok s' => Ok (s', seq 0 (length imgs))
    | Raise e => Raise e
    end.
Proof.
  intros Hst Hsh Hne Hc Hh Hw Hm Hbs.
  repeat split.
  - by rewrite (dataset_mean_run dataset imgs c h w).
  - by rewrite (dataset_scaling_run dataset imgs c h w).
  - rewrite (dataset_std_run dataset imgs c h w) by done.
    by rewrite decide_True by (left; done).
  - intros i Hi. by apply reads_seq.
  - apply image_batches_concat.
  - intros S body s. unfold DataLoader, iterate.
    rewrite decide_False by lia. cbn [lift bind dl_dataset dl_batches].
    rewrite (iterate_stored dataset imgs c h w) by done.
    destruct (foldR _ _ _) as [s'|e]; [|done]. done.
Qed.

Lemma single_pass_witness :
  trace (dataset_mean (of_tensors two_images) 1) = Some (seq 0 (length two_images)) /\
  trace (dataset_scaling (of_tensors two_images) 1) = Some (seq 0 (length two_images)) /\
  trace (dataset_std (of_tensors two_images) (Vector [1%R]) 1) = Some (0 :: seq 0 (length two_images)) /\
  (forall i, i < length two_images -> reads (seq 0 (length two_images)) i = 1) /\
  concat (image_batches two_images 1) = two_images /\
  forall S (body : list tensor3 -> S -> result S) (s : S),
    (dl <~ lift (DataLoader (of_tensors two_images) 1) ;; iterate dl body s) =
    match foldR body (image_batches two_images 1) s with
    | Ok s' => Ok (s', seq 0 (length two_images))
    | Raise e => Raise e
    end.
Proof.
  apply (single_pass (of_tensors two_images) two_images [1%R] 1 1 2 1).
  - apply of_tensors_stores.
  - apply two_images_shape.
  - discriminate.
  - lia.
  - lia.
  - lia.
  - reflexivity.
  - lia.
Defined.

(** * The batch size *)

(** C8 as stated fails: on a dataset whose two images differ in size,
    batches of one image are scanned, a batch of two cannot be stacked. *)
Lemma batch_size_matters :
  0 < 1 /\ 0 < 2 /\
  value (dataset_scaling (of_tensors ragged_images) 1) = Ok 0%R /\
  value (dataset_scaling (of_tensors ragged_images) 2) = Raise RuntimeError.
Proof.
  split; [lia|]. split; [lia|]. split.
  - unfold dataset_scaling, DataLoader, iterate. simpl.
    unfold scaling_body, view. simpl. f_equal.
    unfold Rmax, Rmin, Rabs.
    repeat (destruct (Rle_dec _ _)); repeat (destruct (Rcase_abs _)); lra.
  - unfold dataset_scaling, DataLoader, iterate. simpl.
    unfold default_collate. simpl. reflexivity.
Qed.

(** C8, amended: on a dataset whose items all have one shape C×H×W with
    C, H, W >= 1 the three statistics do not depend on the batch size. *)
Theorem batch_size_irrelevant (dataset : Dataset) (imgs : list tensor3)
    (mean : pynum) (c h w b1 b2 : nat) :
  stores dataset imgs ->
  Forall (has_shape c h w) imgs ->
  0 < c -> 0 < h -> 0 < w ->
  0 < b1 -> 0 < b2 ->
  value (dataset_mean dataset b1) = value (dataset_mean dataset b2) /\
  value (dataset_std dataset mean b1) = value (dataset_std dataset mean b2) /\
  value (dataset_scaling dataset b1) = value (dataset_scaling dataset b2).
Proof.
  intros Hst Hsh Hc Hh Hw H1 H2.
  split; [|split].
  - destruct (decide (imgs = [])) as [->|Hne].
    + destruct Hst as [Hlen _]. simpl in Hlen.
      unfold dataset_mean, DataLoader, iterate.
      rewrite !decide_False by lia. simpl. by rewrite Hlen.
    + by rewrite !(dataset_mean_run dataset imgs c h w).
  - destruct (decide (imgs = [])) as [->|Hne].
    + destruct Hst as [Hlen _]. simpl in Hlen.
      unfold dataset_std, DataLoader, iterate.
      rewrite !decide_False by lia. by rewrite Hlen.
    + destruct mean as [x|mean].
      * by rewrite !(dataset_std_run_scalar dataset imgs c h w).
      * by rewrite !(dataset_std_run dataset imgs c h w).
  - by rewrite !(dataset_scaling_run dataset imgs c h w).
Qed.

Lemma batch_size_irrelevant_witness :
  value (dataset_mean (of_tensors two_images) 1)
    = value (dataset_mean (of_tensors two_images) 2) /\
  value (dataset_std (of_tensors two_images) (Vector [1%R]) 1)
    = value (dataset_std (of_tensors two_images) (Vector [1%R]) 2) /\
  value (dataset_scaling (of_tensors two_images) 1)
    = value (dataset_scaling (of_tensors two_images) 2).
Proof.
  apply (batch_size_irrelevant (of_tensors two_images) two_images (Vector [1%R]) 1 1 2 1 2).
  - apply of_tensors_stores.
  - apply two_images_shape.
  - lia.
  - lia.
  - lia.
  - lia.
  - lia.
Defined.

(** * InvertTransform *)

Section Transforms.

Local Open Scope R_scope.


Lemma rsub_entries t : entries_in 0 1 t -> entries_in 0 1 (rsub 1 t).
Proof.
  unfold entries_in, rsub. intros H.
  apply Forall_fmap. eapply Forall_impl; [exact H|]. intros ch Hch. simpl.
  apply Forall_fmap. eapply Forall_impl; [exact Hch|]. intros row Hrow. simpl.
  apply Forall_fmap. eapply Forall_impl; [exact Hrow|]. intros x Hx. simpl. lra.
Qed.

End Transforms.

Section Float32.

Local Open Scope R_scope.






End Float32.

Section Entrywise.

Context {A B C : Type}.



End Entrywise.




(** * SketchesDataset: the rows it keeps *)

Section Filters.

Context {A : Type}.

Lemma filter_filter_and (P Q : A -> Prop) `{!forall r, Decision (P r)}
    `{!forall r, Decision (Q r)} (l : list A) :
  filter Q (filter P l) = filter (fun r => P r /\ Q r) l.
Proof.
  induction l as [|r l IH]; [done|].
  destruct (decide (P r)) as [HP|HP].
  - rewrite (filter_cons_True P) by done.
    destruct (decide (Q r)) as [HQ|HQ].
    + rewrite !filter_cons_True by done. by rewrite IH.
    + rewrite !filter_cons_False by tauto. done.
  - rewrite (filter_cons_False P) by done.
    rewrite (filter_cons_False (fun r => P r /\ Q r)) by tauto. done.
Qed.

Lemma filter_all (P : A -> Prop) `{!forall r, Decision (P r)} (l : list A) :
  (forall r, P r) -> filter P l = l.
Proof.
  intros HP. induction l as [|r l IH]; [done|].
  rewrite filter_cons_True by done. by rewrite IH.
Qed.

(** A filter behind a flag is a filter by an implication. *)
Lemma flag_filter (b : bool) (P : A -> Prop) `{!forall r, Decision (P r)} (l : list A) :
  (if b then filter P l else l) = filter (fun r => b = true -> P r) l.
Proof.
  destruct b.
  - apply list_filter_iff. intros r. tauto.
  - symmetry. apply filter_all. done.
Qed.

End Filters.

(** C4: the rows a constructed [SketchesDataset] holds are the rows of
    stats.csv whose column is 0 for every enabled flag, in their order;
    [__len__] is their number; a disabled flag removes nothing; by default
    only [remove_error] is enabled. *)
Theorem SketchesDataset_filter (w : World) (sketches_dir info_dir : string)
    (transform : option Transform)
    (remove_error remove_ambiguous remove_pose remove_context : bool)
    (rows : list stats_row) (self : SketchesDataset) :
  read_csv w (path_join info_dir ["stats.csv"]) = Ok rows ->
  SketchesDataset_init w sketches_dir info_dir transform
    remove_error remove_ambiguous remove_pose remove_context = Ok self ->
  stats self = filter (retained remove_error remove_ambiguous remove_pose remove_context) rows /\
  (forall row, row ∈ stats self <->
     row ∈ rows /\
     (remove_error = true -> col_Error row = 0%Z) /\
     (remove_ambiguous = true -> col_Ambiguous row = 0%Z) /\
     (remove_pose = true -> col_WrongPose row = 0%Z) /\
     (remove_context = true -> col_Context row = 0%Z)) /\
  SketchesDataset_len self =
    length (filter (retained remove_error remove_ambiguous remove_pose remove_context) rows) /\
  (remove_error = false -> remove_ambiguous = false ->
   remove_pose = false -> remove_context = false -> stats self = rows) /\
  (forall row,
     retained remove_error_default remove_ambiguous_default
       remove_pose_default remove_context_default row <-> col_Error row = 0%Z).
Proof.
  intros Hcsv Hinit. unfold SketchesDataset_init in Hinit.
  destruct (open_lines w _) as [inv|e]; [|done]. cbn [rbind] in Hinit.
  rewrite Hcsv in Hinit. cbn [rbind] in Hinit.
  assert (stats self
          = filter (retained remove_error remove_ambiguous remove_pose remove_context) rows)
    as Hs.
  { injection Hinit as <-. cbn [stats].
    rewrite !flag_filter, !filter_filter_and.
    apply list_filter_iff. intros r. unfold retained. tauto. }
  unfold SketchesDataset_len. rewrite Hs.
  split; [done|]. split; [|split; [done|split]].
  - intros row. rewrite list_elem_of_filter. unfold retained. tauto.
  - intros -> -> -> ->. apply filter_all. intros r. unfold retained. done.
  - intros row. unfold retained, remove_error_default, remove_ambiguous_default,
      remove_pose_default, remove_context_default.
    split; [intros [H _]; by apply H | intros H; repeat split; done].
Qed.

Lemma SketchesDataset_filter_witness :
  stats example_sketches = filter (retained true false false false) example_rows /\
  (forall row, row ∈ stats example_sketches <->
     row ∈ example_rows /\
     (true = true -> col_Error row = 0%Z) /\
     (false = true -> col_Ambiguous row = 0%Z) /\
     (false = true -> col_WrongPose row = 0%Z) /\
     (false = true -> col_Context row = 0%Z)) /\
  SketchesDataset_len example_sketches =
    length (filter (retained true false false false) example_rows) /\
  (true = false -> false = false -> false = false -> false = false ->
   stats example_sketches = example_rows) /\
  (forall row,
     retained remove_error_default remove_ambiguous_default
       remove_pose_default remove_context_default row <-> col_Error row = 0%Z).
Proof.
  apply (SketchesDataset_filter example_world "sketches" "info" None
           true false false false example_rows example_sketches).
  - vm_compute. reflexivity.
  - vm_compute. reflexivity.
Defined.

(** * Exceptions *)

Section Propagation.





End Propagation.


(** In the example world the second sketch has no file. *)
Example missing_sketch :
  SketchesDataset_getitem example_world ∅ example_sketches 1
  = Raise (FileNotFoundError "sketches/ant/n02219486_27-1.png").
Proof. vm_compute. reflexivity. Qed.

(** * The label map *)

Section Labels.

Lemma enumerate_snoc {A} (l : list A) x :
  enumerate (l ++ [x]) = enumerate l ++ [(length l, x)].
Proof.
  unfold enumerate. rewrite imap_app. simpl. by rewrite Nat.add_0_r.
Qed.

Lemma labels_fold_lookup (l : list string) i s :
  NoDup l -> l !! i = Some s ->
  foldl labels_step ∅ (enumerate l) !! PInt i = Some (PStr s) /\
  foldl labels_step ∅ (enumerate l) !! PStr s = Some (PInt i).
Proof.
  revert i s. induction l as [|x l IH] using rev_ind; intros i s Hnd Hi; [done|].
  rewrite enumerate_snoc, foldl_app. simpl. unfold labels_step at 1 3. simpl.
  apply NoDup_app in Hnd as (Hnd & Hx & _).
  destruct (decide (i < length l)) as [Hlt|Hge].
  - rewrite lookup_app_l in Hi by done.
    destruct (IH i s Hnd Hi) as [H1 H2].
    assert (s <> x) as Hsx.
    { intros ->. apply (Hx x); [|by left]. by eapply list_elem_of_lookup_2. }
    rewrite !lookup_insert_ne by (try done; intros [=]; (done || lia)).
    done.
  - assert (i = length l) as ->.
    { apply lookup_lt_Some in Hi. rewrite length_app in Hi. simpl in Hi. lia. }
    rewrite list_lookup_middle in Hi by done. injection Hi as ->.
    rewrite lookup_insert_eq.
    rewrite lookup_insert_ne by done. by rewrite lookup_insert_eq.
Qed.

Lemma sorted_NoDup names : NoDup names -> NoDup (sorted names).
Proof.
  intros H. unfold sorted. by rewrite merge_sort_Permutation.
Qed.

Lemma sorted_unique names names' : names' ≡ₚ names -> sorted names' = sorted names.
Proof.
  intros Hp. unfold sorted.
  apply (Sorted_unique String.le).
  - apply Sorted_merge_sort, _.
  - apply Sorted_merge_sort, _.
  - by rewrite !merge_sort_Permutation.
Qed.

End Labels.

(** C10: for a listing of distinct folder names the dictionary maps every
    label to an id and that id back to the label, and every id below the
    number of labels to a label and that label back to the id; the id of a
    label is its position among the sorted labels, so listings with the
    same names give the same dictionary. *)
Theorem labels_id_map_inverse (w : World) (photos_dir : string) (names : list string) :
  listdir w photos_dir = Ok names ->
  NoDup names ->
  exists d,
    generate_labels_id_map w photos_dir = Ok d /\
    (forall label, label ∈ names ->
       (v <- dict_get d (PStr label) ;; dict_get d v) = Ok (PStr label)) /\
    (forall i, i < length names ->
       (v <- dict_get d (PInt i) ;; dict_get d v) = Ok (PInt i)) /\
    (forall i label, sorted names !! i = Some label ->
       dict_get d (PInt i) = Ok (PStr label) /\
       dict_get d (PStr label) = Ok (PInt i)) /\
    Sorted String.le (sorted names) /\
    sorted names ≡ₚ names /\
    (forall w' photos_dir' names',
       listdir w' photos_dir' = Ok names' -> names' ≡ₚ names ->
       generate_labels_id_map w' photos_dir' = Ok d).
Proof.
  intros Hls Hnd. unfold generate_labels_id_map. rewrite Hls. simpl.
  eexists. split; [reflexivity|].
  pose proof (sorted_NoDup names Hnd) as Hnds.
  assert (forall i label, sorted names !! i = Some label ->
            dict_get (foldl labels_step ∅ (enumerate (sorted names))) (PInt i)
              = Ok (PStr label) /\
            dict_get (foldl labels_step ∅ (enumerate (sorted names))) (PStr label)
              = Ok (PInt i)) as Hd.
  { intros i label Hi. unfold dict_get.
    destruct (labels_fold_lookup _ i label Hnds Hi) as [-> ->]. done. }
  assert (sorted names ≡ₚ names) as Hperm by apply merge_sort_Permutation.
  repeat split.
  - intros label Hin. rewrite <- Hperm in Hin.
    apply list_elem_of_lookup in Hin as [i Hi].
    destruct (Hd i label Hi) as [H1 H2]. rewrite H2. simpl. done.
  - intros i Hi. rewrite <- Hperm in Hi.
    destruct (lookup_lt_is_Some_2 _ _ Hi) as [label Hl].
    destruct (Hd i label Hl) as [H1 H2]. rewrite H1. simpl. done.
  - by apply Hd.
  - by apply Hd.
  - apply Sorted_merge_sort, _.
  - done.
  - intros w' dir' names' Hls' Hp. rewrite Hls'. simpl.
    by rewrite (sorted_unique names names').
Qed.

Lemma labels_id_map_inverse_witness :
  exists d,
    generate_labels_id_map example_world "photos" = Ok d /\
    (forall label, label ∈ ["ant"; "alarm_clock"] ->
       (v <- dict_get d (PStr label) ;; dict_get d v) = Ok (PStr label)) /\
    (forall i, i < length ["ant"; "alarm_clock"] ->
       (v <- dict_get d (PInt i) ;; dict_get d v) = Ok (PInt i)) /\
    (forall i label, sorted ["ant"; "alarm_clock"] !! i = Some label ->
       dict_get d (PInt i) = Ok (PStr label) /\
       dict_get d (PStr label) = Ok (PInt i)) /\
    Sorted String.le (sorted ["ant"; "alarm_clock"]) /\
    sorted ["ant"; "alarm_clock"] ≡ₚ ["ant"; "alarm_clock"] /\
    (forall w' photos_dir' names',
       listdir w' photos_dir' = Ok names' -> names' ≡ₚ ["ant"; "alarm_clock"] ->
       generate_labels_id_map w' photos_dir' = Ok d).
Proof.
  apply (labels_id_map_inverse example_world "photos" ["ant"; "alarm_clock"]).
  - vm_compute. reflexivity.
  - apply (bool_decide_unpack _). vm_compute. exact I.
Defined.

(** In the example world "alarm_clock" gets id 0 and "ant" id 1. *)
Example labels_id_map_example :
  (d <- generate_labels_id_map example_world "photos" ;;
   a <- dict_get d (PInt 0) ;; b <- dict_get d (PStr "ant") ;; Ok (a, b))
  = Ok (PStr "alarm_clock", PInt 1).
Proof. vm_compute. reflexivity. Qed.

(** * The saved statistics *)

Section Shapes.

Context (c h w : nat).

Lemma to_tensor_shape im : pil_shape c h w im -> has_shape c h w (to_tensor im).
Proof.
  intros [Hc Hb]. unfold to_tensor. split; [by rewrite length_map|].
  apply Forall_fmap. eapply Forall_impl; [exact Hb|].
  intros band [Hh Hrow]. simpl. split; [by rewrite length_map|].
  apply Forall_fmap. eapply Forall_impl; [exact Hrow|].
  intros row Hw. simpl. by rewrite length_map.
Qed.

Lemma rsub_shape a t : has_shape c h w t -> has_shape c h w (rsub a t).
Proof.
  intros [Hc Hb]. unfold rsub. split; [by rewrite length_map|].
  apply Forall_fmap. eapply Forall_impl; [exact Hb|].
  intros band [Hh Hrow]. simpl. split; [by rewrite length_map|].
  apply Forall_fmap. eapply Forall_impl; [exact Hrow|].
  intros row Hw. simpl. by rewrite length_map.
Qed.

Lemma normalize_shape mean std t :
  length mean = c -> length std = c ->
  has_shape c h w t -> has_shape c h w (normalize mean std t).
Proof.
  intros Hm Hs [Hc Hb]. unfold normalize. split.
  - rewrite length_zip_with, length_zip. lia.
  - apply Forall_forall. intros ch Hch.
    apply elem_of_lookup_zip_with in Hch as (i & band & ms & -> & Hband & _).
    destruct (Forall_lookup_1 _ _ _ _ Hb Hband) as [Hh Hrow].
    split; [by rewrite length_map|].
    apply Forall_fmap. eapply Forall_impl; [exact Hrow|].
    intros row Hw. simpl. by rewrite length_map.
Qed.

Lemma length_mean_ref imgs : length (mean_ref c h w imgs) = c.
Proof. unfold mean_ref. by rewrite length_map, length_seq. Qed.

Lemma length_std_ref mean imgs : length (std_ref c h w mean imgs) = c.
Proof. unfold std_ref. by rewrite length_map, length_seq. Qed.

End Shapes.

Section Stores.

(** [Normalize] with one non-zero entry of [std] and one entry of [mean]
    per channel. *)
Lemma Normalize_ok mean std t :
  length mean = length t -> length std = length t ->
  Forall (fun x => x <> 0%R) std ->
  Normalize mean std (Tensor t) = Ok (Tensor (normalize mean std t)).
Proof.
  intros Hm Hs Hstd. unfold Normalize, broadcast_channels.
  rewrite decide_False.
  - by rewrite !decide_True.
  - intros Hex. apply Exists_exists in Hex as (x & Hx & ->).
    by apply (proj1 (Forall_forall _ _) Hstd 0%R).
Qed.

Lemma ones_nonzero : Forall (fun x => x <> 0%R) [1%R; 1%R; 1%R].
Proof. repeat constructor; lra. Qed.

(** [ImageFolder] on a root that holds images. *)
Lemma ImageFolder_ok photos tr :
  photos <> [] -> ImageFolder photos tr = Ok (ImageFolder_dataset photos tr).
Proof. by destruct photos. Qed.

(** [ImageFolder] with a transform that succeeds on its images. *)
Lemma stores_ImageFolder photos (tr : Transform) (g : pil_image -> tensor3) :
  Forall (fun p => tr (PIL (fst p)) = Ok (Tensor (g (fst p)))) photos ->
  stores (ImageFolder_dataset photos (Some tr)) (map (fun p => g (fst p)) photos).
Proof.
  intros Htr. split; [by rewrite length_map|].
  intros i t Hi. rewrite list_lookup_fmap in Hi.
  destruct (photos !! i) as [[im target]|] eqn:Hp; [|done].
  injection Hi as <-. exists target. simpl. rewrite Hp.
  pose proof (Forall_lookup_1 _ _ _ _ Htr Hp) as E. simpl in E. by rewrite E.
Qed.

(** [SketchesDataset] with a transform that succeeds on its sketches. *)
Lemma stores_SketchesDataset w lm (self : SketchesDataset) (tr : Transform)
    (g : pil_image -> tensor3) ims :
  transform self = Some tr ->
  Forall2 (fun row im =>
             files w !! sketch_path self row = Some (ImageFile im) /\
             exists id, lm !! PStr (class_folder row) = Some (PInt id))
          (stats self) ims ->
  Forall (fun im => tr (PIL im) = Ok (Tensor (g im))) ims ->
  stores (SketchesDataset_dataset w lm self) (map g ims).
Proof.
  intros Htr Hfiles Hg. split.
  - simpl. unfold SketchesDataset_len. rewrite length_map.
    by apply Forall2_length in Hfiles.
  - intros i t Hi. rewrite list_lookup_fmap in Hi.
    destruct (ims !! i) as [im|] eqn:Him; [|done]. injection Hi as <-.
    destruct (Forall2_lookup_r _ _ _ _ _ Hfiles Him) as (row & Hrow & Hf & id & Hid).
    exists id. simpl. unfold SketchesDataset_getitem, open_image, dict_get.
    rewrite Hrow, Hf, Htr. simpl.
    rewrite (Forall_lookup_1 _ _ _ _ Hg Him). simpl. by rewrite Hid.
Qed.

End Stores.

Section Pipeline.

Context (c h w : nat).
Hypothesis Hc : 0 < c.
Hypothesis Hh : 0 < h.
Hypothesis Hw : 0 < w.

(** The three statistics of a stored dataset, as the notebook computes
    them one after the other: mean, standard deviation around it, scaling
    of the dataset normalised by it. *)
Lemma statistics_values (d1 d2 : Dataset) (imgs : list tensor3) :
  imgs <> [] ->
  Forall (has_shape c h w) imgs ->
  stores d1 imgs ->
  stores d2 (map (normalize (mean_ref c h w imgs) (replicate c 1%R)) imgs) ->
  value (dataset_mean d1 default_batch_size) = Ok (Vector (mean_ref c h w imgs)) /\
  value (dataset_std d1 (Vector (mean_ref c h w imgs)) default_batch_size)
    = Ok (std_ref c h w (mean_ref c h w imgs) imgs) /\
  value (dataset_scaling d2 default_batch_size)
    = Ok (scaling_ref (map (normalize (mean_ref c h w imgs) (replicate c 1%R)) imgs)).
Proof.
  intros Hne Hsh Hs1 Hs2.
  assert (0 < default_batch_size) as Hbs by (unfold default_batch_size; lia).
  repeat split.
  - by rewrite (dataset_mean_run d1 imgs c h w).
  - rewrite (dataset_std_run d1 imgs c h w) by done.
    rewrite decide_True by (left; by rewrite length_mean_ref).
    unfold bc_len. rewrite decide_True by (by rewrite length_mean_ref).
    simpl. by rewrite (std_of_sqdev c h w) by (done || apply length_mean_ref).
  - rewrite (dataset_scaling_run d2
               (map (normalize (mean_ref c h w imgs) (replicate c 1%R)) imgs) c h w);
      try done.
    apply Forall_fmap. eapply Forall_impl; [exact Hsh|].
    intros t Ht. simpl. apply normalize_shape; try done.
    + apply length_mean_ref.
    + by rewrite length_replicate.
Qed.

End Pipeline.

(** C5: on photos and kept sketches of three bands the cells compute the
    six statistics and save them with one call of [np.savez]: the archive
    dataset_stats.npz is the only file written, it holds the six names, the
    means and standard deviations are arrays of three entries, one per
    channel, and the scaling factors are scalars. *)
Theorem dataset_stats_saved (w : World) (labels_id_map : gmap pyval pyval)
    (photos : list (pil_image * nat)) (lines : list string)
    (rows : list stats_row) (ims : list pil_image) (h wd h' wd' : nat) :
  photos <> [] ->
  Forall (fun p => pil_shape 3 h wd (fst p)) photos ->
  0 < h -> 0 < wd ->
  files w !! path_join INFO_DIR ["invalid-error.txt"] = Some (TextFile lines) ->
  files w !! path_join INFO_DIR ["stats.csv"] = Some (CsvFile rows) ->
  sketches_present w labels_id_map rows ims ->
  ims <> [] ->
  Forall (pil_shape 3 h' wd') ims ->
  0 < h' -> 0 < wd' ->
  let ps := map (fun p => to_tensor (fst p)) photos in
  let ss := map (fun im => rsub 1 (to_tensor im)) ims in
  let archive := stats_archive h wd h' wd' ps ss in
  preprocessing w labels_id_map photos = Ok (np_savez w "dataset_stats" archive) /\
  files (np_savez w "dataset_stats" archive)
    = <["dataset_stats.npz" := NpzFile archive]> (files w) /\
  dirs (np_savez w "dataset_stats" archive) = dirs w /\
  map fst archive
    = ["photos_mean"; "photos_std"; "photos_scaling";
       "sketches_mean"; "sketches_std"; "sketches_scaling"] /\
  exists pm pd psc sm sd ssc,
    map snd archive
      = [NpArray pm; NpArray pd; NpScalar psc; NpArray sm; NpArray sd; NpScalar ssc] /\
    length pm = 3 /\ length pd = 3 /\ length sm = 3 /\ length sd = 3.
Proof.
  intros Hpne Hpsh Hh Hwd Hinv Hcsv Hsk Hine Hish Hh' Hwd' ps ss archive.
  assert (Forall (has_shape 3 h wd) ps) as Hps.
  { apply Forall_fmap. eapply Forall_impl; [exact Hpsh|].
    intros p Hp. by apply to_tensor_shape. }
  assert (Forall (has_shape 3 h' wd') ss) as Hss.
  { apply Forall_fmap. eapply Forall_impl; [exact Hish|].
    intros p Hp. by apply rsub_shape, to_tensor_shape. }
  assert (ps <> []) as Hpsne by (subst ps; by destruct photos).
  assert (ss <> []) as Hssne by (subst ss; by destruct ims).
  set (pm := mean_ref 3 h wd ps).
  set (sm := mean_ref 3 h' wd' ss).
  (* the photos *)
  destruct (statistics_values 3 h wd ltac:(lia) Hh Hwd
              (ImageFolder_dataset photos (Some ToTensor))
              (ImageFolder_dataset photos
                 (Some (Compose [ToTensor; Normalize (entries (Vector pm)) [1; 1; 1]%R])))
              ps Hpsne Hps) as (Hpm & Hpd & Hpsc).
  { by apply (stores_ImageFolder photos ToTensor to_tensor), Forall_true. }
  { unfold ps. rewrite map_map.
    apply (stores_ImageFolder photos _ (fun im => normalize pm [1; 1; 1]%R (to_tensor im))).
    eapply Forall_impl; [exact Hpsh|]. intros p [Hp _].
    cbn [Compose ToTensor rbind entries].
    rewrite Normalize_ok; [done| | |apply ones_nonzero];
      unfold to_tensor; by rewrite length_map. }
  (* the sketches *)
  set (tr1 := Compose [ToTensor; InvertTransform]).
  set (tr2 := Compose [ToTensor; InvertTransform; Normalize (entries (Vector sm)) [1; 1; 1]%R]).
  set (kept := filter (fun r => col_Error r = 0%Z) rows).
  set (self1 := {| sketches_dir := SKETCHES_DIR; info_dir := INFO_DIR;
                   transform := Some tr1; invalid := lines; stats := kept |}).
  set (self2 := {| sketches_dir := SKETCHES_DIR; info_dir := INFO_DIR;
                   transform := Some tr2; invalid := lines; stats := kept |}).
  destruct (statistics_values 3 h' wd' ltac:(lia) Hh' Hwd'
              (SketchesDataset_dataset w labels_id_map self1)
              (SketchesDataset_dataset w labels_id_map self2)
              ss Hssne Hss) as (Hsm & Hsd & Hssc).
  { apply (stores_SketchesDataset w labels_id_map self1 tr1
             (fun im => rsub 1 (to_tensor im)) ims); [done|exact Hsk|].
    by apply Forall_true. }
  { unfold ss. rewrite map_map.
    apply (stores_SketchesDataset w labels_id_map self2 tr2
             (fun im => normalize sm [1; 1; 1]%R (rsub 1 (to_tensor im))) ims);
      [done|exact Hsk|].
    eapply Forall_impl; [exact Hish|]. intros im [Him _]. unfold tr2.
    cbn [Compose ToTensor InvertTransform rbind entries].
    rewrite Normalize_ok; [done| | |apply ones_nonzero];
      unfold rsub, to_tensor; by rewrite !length_map. }
  split.
  - unfold preprocessing.
    rewrite ImageFolder_ok by done. cbn [rbind].
    rewrite Hpm. cbn [rbind]. rewrite Hpd. cbn [rbind].
    rewrite ImageFolder_ok by done. cbn [rbind].
    fold pm. rewrite Hpsc. cbn [rbind].
    unfold SketchesDataset_init, open_lines, read_csv. rewrite Hinv, Hcsv.
    cbn [rbind remove_error_default remove_ambiguous_default
         remove_pose_default remove_context_default].
    fold kept tr1 self1. rewrite Hsm. cbn [rbind]. rewrite Hsd. cbn [rbind].
    fold sm tr2 self2. rewrite Hssc. cbn [rbind numpy].
    done.
  - split; [done|]. split; [done|]. split; [done|].
    eexists _, _, _, _, _, _. split; [reflexivity|].
    by rewrite !length_mean_ref, !length_std_ref.
Qed.

Lemma dataset_stats_saved_witness :
  let ps := map (fun p => to_tensor (fst p)) notebook_photos in
  let ss := map (fun im => rsub 1 (to_tensor im)) [notebook_sketch] in
  let archive := stats_archive 1 2 1 2 ps ss in
  preprocessing notebook_world notebook_labels notebook_photos
    = Ok (np_savez notebook_world "dataset_stats" archive) /\
  files (np_savez notebook_world "dataset_stats" archive)
    = <["dataset_stats.npz" := NpzFile archive]> (files notebook_world) /\
  dirs (np_savez notebook_world "dataset_stats" archive) = dirs notebook_world /\
  map fst archive
    = ["photos_mean"; "photos_std"; "photos_scaling";
       "sketches_mean"; "sketches_std"; "sketches_scaling"] /\
  exists pm pd psc sm sd ssc,
    map snd archive
      = [NpArray pm; NpArray pd; NpScalar psc; NpArray sm; NpArray sd; NpScalar ssc] /\
    length pm = 3 /\ length pd = 3 /\ length sm = 3 /\ length sd = 3.
Proof.
  apply (dataset_stats_saved notebook_world notebook_labels notebook_photos []
           notebook_rows [notebook_sketch] 1 2 1 2).
  - discriminate.
  - repeat (constructor || split).
  - lia.
  - lia.
  - vm_compute. reflexivity.
  - vm_compute. reflexivity.
  - unfold sketches_present.
    assert (filter (fun r => col_Error r = 0%Z) notebook_rows
            = [ {| Category := "alarm clock"; ImageNetID := "n02694662_92";
                   SketchID := 1; col_Error := 0; col_Ambiguous := 0;
                   col_WrongPose := 0; col_Context := 0 |} ]) as -> by reflexivity.
    constructor; [|constructor]. split.
    + vm_compute. reflexivity.
    + exists 0. vm_compute. reflexivity.
  - discriminate.
  - repeat (constructor || split).
  - lia.
  - lia.
Defined.

(** * Further properties of the code *)

Section Traces.

Lemma fetch_trace dataset idxs its w :
  fetch dataset idxs = Ok (its, w) -> w = idxs.
Proof.
  revert its w. induction idxs as [|i idxs IH]; intros its w; simpl.
  - by intros [= _ <-].
  - unfold read. destruct (getitem dataset i) as [it|e]; [|done]. simpl.
    destruct (fetch dataset idxs) as [[its' w']|e]; [|done]. simpl.
    intros [= _ <-]. rewrite (IH its' w' eq_refl). by rewrite app_nil_r.
Qed.

Lemma for_batches_trace {S} dataset batches (body : list tensor3 -> S -> result S) s s' w :
  for_batches dataset batches body s = Ok (s', w) -> w = concat batches.
Proof.
  revert s s' w. induction batches as [|b batches IH]; intros s s' w; simpl.
  - by intros [= _ <-].
  - destruct (fetch dataset b) as [[its w1]|e] eqn:Hf; [|done]. simpl.
    apply fetch_trace in Hf as ->.
    destruct (default_collate its) as [batch|e]; [|done]. simpl.
    destruct (body batch s) as [s1|e]; [|done]. simpl.
    destruct (for_batches dataset batches body s1) as [[s2 w2]|e] eqn:Hr; [|done].
    intros [= _ <-]. by rewrite (IH _ _ _ Hr).
Qed.

End Traces.

(** X1: whatever the dataset holds, a call of a statistics function that
    returns has read exactly the indices 0 .. len - 1, in this order, in
    its loop; [dataset_std] has read index 0 once before, and returns only
    on a dataset of length at least 1.  So a call that returns has read no
    index from len on. *)
Theorem returned_trace (dataset : Dataset) (mean : pynum) (batch_size : nat) :
  (forall v w, dataset_mean dataset batch_size = Ok (v, w) ->
     w = seq 0 (len dataset) /\ Forall (fun i => i < len dataset) w) /\
  (forall v w, dataset_std dataset mean batch_size = Ok (v, w) ->
     w = 0 :: seq 0 (len dataset) /\ 0 < len dataset /\
     Forall (fun i => i < len dataset) w) /\
  (forall v w, dataset_scaling dataset batch_size = Ok (v, w) ->
     w = seq 0 (len dataset) /\ Forall (fun i => i < len dataset) w).
Proof.
  assert (forall n, Forall (fun i => i < n) (seq 0 n)) as Hseq.
  { intros n. apply Forall_forall. intros i Hi.
    apply elem_of_seq in Hi. lia. }
  split; [|split]; intros v w.
  - unfold dataset_mean, DataLoader, iterate.
    case_decide; [done|]. cbn [lift bind dl_dataset dl_batches].
    destruct (for_batches _ _ _ _) as [[s w1]|e] eqn:Hf; [|done].
    apply for_batches_trace in Hf as ->. rewrite batch_sampler_concat.
    cbn [bind]. destruct (idiv s (len dataset)) as [m|e]; [|done].
    simpl. intros [= _ <-]. rewrite !app_nil_r. by split.
  - unfold dataset_std, read.
    destruct (getitem dataset 0) as [it|e]; [|done]. cbn [bind].
    destruct (as_tensor it.1) as [t|e]; [|done]. cbn [lift bind].
    destruct (size t) as [[c h] wd].
    unfold DataLoader, iterate.
    case_decide; [done|]. cbn [lift bind dl_dataset dl_batches].
    destruct (for_batches _ _ _ _) as [[s w1]|e] eqn:Hf; [|done].
    assert (0 < len dataset \/ s = Scalar 0%R) as Hlen.
    { destruct (len dataset) as [|n]; [right|left; lia].
      cbv in Hf. by injection Hf as <- _. }
    apply for_batches_trace in Hf as ->. rewrite batch_sampler_concat.
    cbn [bind]. destruct (sqrt_div s _) as [sd|e] eqn:Hsd; [|done].
    assert (0 < len dataset) as Hpos.
    { destruct Hlen as [?| ->]; [done|].
      simpl in Hsd. by case_decide. }
    simpl. intros [= _ <-]. rewrite !app_nil_r.
    split; [done|]. split; [done|]. constructor; [done|apply Hseq].
  - unfold dataset_scaling, DataLoader, iterate.
    case_decide; [done|]. cbn [lift bind dl_dataset dl_batches].
    destruct (for_batches _ _ _ _) as [[[lo hi] w1]|e] eqn:Hf; [|done].
    apply for_batches_trace in Hf as ->. rewrite batch_sampler_concat.
    simpl. intros [= _ <-]. rewrite !app_nil_r. by split.
Qed.

(** X2: on a dataset of length 0 [dataset_mean] divides the float 0. by 0
    and raises [ZeroDivisionError], for every positive batch size. *)
Theorem dataset_mean_empty (dataset : Dataset) (batch_size : nat) :
  len dataset = 0 -> 0 < batch_size ->
  dataset_mean dataset batch_size = Raise ZeroDivisionError.
Proof.
  intros Hlen Hbs. unfold dataset_mean, DataLoader, iterate.
  rewrite decide_False by lia. cbn [lift bind dl_dataset dl_batches].
  by rewrite Hlen.
Qed.

Lemma dataset_mean_empty_witness :
  dataset_mean (SketchesDataset_dataset example_world ∅ no_sketches) 100
  = Raise ZeroDivisionError.
Proof.
  apply (dataset_mean_empty (SketchesDataset_dataset example_world ∅ no_sketches) 100).
  - reflexivity.
  - lia.
Defined.

(** X3: on a dataset of length 0 [dataset_scaling] reads no item and
    returns 1, the value the initial minimum 1 and maximum -1 give. *)
Theorem dataset_scaling_empty (dataset : Dataset) (batch_size : nat) :
  len dataset = 0 -> 0 < batch_size ->
  dataset_scaling dataset batch_size = Ok (1%R, []).
Proof.
  intros Hlen Hbs. unfold dataset_scaling, DataLoader, iterate.
  rewrite decide_False by lia. cbn [lift bind dl_dataset dl_batches].
  rewrite Hlen. simpl. do 2 f_equal.
  unfold Rmax, Rabs.
  repeat (destruct (Rle_dec _ _)); repeat (destruct (Rcase_abs _)); lra.
Qed.

Lemma dataset_scaling_empty_witness :
  dataset_scaling (SketchesDataset_dataset example_world ∅ no_sketches) 100
  = Ok (1%R, []).
Proof.
  apply (dataset_scaling_empty (SketchesDataset_dataset example_world ∅ no_sketches) 100).
  - reflexivity.
  - lia.
Defined.

(** X4: [dataset_std] evaluates [dataset[0]] before anything else: an
    exception of [dataset[0]] is its result for every mean and every batch
    size, also 0, and whatever the length; on a [SketchesDataset] without
    rows this is [IndexError]. *)
Theorem dataset_std_first_item :
  (forall dataset e mean batch_size,
     getitem dataset 0 = Raise e ->
     dataset_std dataset mean batch_size = Raise e) /\
  (forall w labels_id_map self mean batch_size,
     stats self = [] ->
     dataset_std (SketchesDataset_dataset w labels_id_map self) mean batch_size
     = Raise IndexError).
Proof.
  split.
  - intros ds e mean bs Hget. unfold dataset_std, read. by rewrite Hget.
  - intros w lm self mean bs Hs. unfold dataset_std, read. simpl.
    unfold SketchesDataset_getitem. by rewrite Hs.
Qed.

(** Without rows, and with batch size 0. *)
Example dataset_std_no_sketches :
  dataset_std (SketchesDataset_dataset example_world ∅ no_sketches) (Scalar 0) 0
  = Raise IndexError.
Proof. reflexivity. Qed.

Section Init.

Lemma SketchesDataset_init_ok w sd id tr re ra rp rc lines rows :
  open_lines w (path_join id ["invalid-error.txt"]) = Ok lines ->
  read_csv w (path_join id ["stats.csv"]) = Ok rows ->
  SketchesDataset_init w sd id tr re ra rp rc
  = Ok {| sketches_dir := sd; info_dir := id; transform := tr; invalid := lines;
          stats := filter (retained re ra rp rc) rows |}.
Proof.
  intros Hl Hr. unfold SketchesDataset_init. rewrite Hl. cbn [rbind].
  rewrite Hr. cbn [rbind]. do 2 f_equal.
  rewrite !flag_filter, !filter_filter_and.
  apply list_filter_iff. intros r. unfold retained. tauto.
Qed.

Lemma SketchesDataset_init_inv w sd id tr re ra rp rc self :
  SketchesDataset_init w sd id tr re ra rp rc = Ok self ->
  exists lines rows,
    open_lines w (path_join id ["invalid-error.txt"]) = Ok lines /\
    read_csv w (path_join id ["stats.csv"]) = Ok rows /\
    self = {| sketches_dir := sd; info_dir := id; transform := tr; invalid := lines;
              stats := filter (retained re ra rp rc) rows |}.
Proof.
  intros H.
  destruct (open_lines w (path_join id ["invalid-error.txt"])) as [lines|e] eqn:Hl.
  - destruct (read_csv w (path_join id ["stats.csv"])) as [rows|e] eqn:Hr.
    + rewrite (SketchesDataset_init_ok _ _ _ _ _ _ _ _ lines rows Hl Hr) in H.
      injection H as <-. by exists lines, rows.
    + unfold SketchesDataset_init in H. rewrite Hl in H. cbn [rbind] in H.
      by rewrite Hr in H.
  - unfold SketchesDataset_init in H. by rewrite Hl in H.
Qed.

End Init.

(** X5: constructing with more flags enabled gives the rows of the
    dataset constructed with fewer, filtered by the larger set of flags:
    enabling a flag only removes rows, and [__len__] does not grow. *)
Theorem more_flags_fewer_rows (w : World) (sd id : string) (tr tr' : option Transform)
    (re ra rp rc re' ra' rp' rc' : bool) (self self' : SketchesDataset) :
  flags_le (re, ra, rp, rc) (re', ra', rp', rc') ->
  SketchesDataset_init w sd id tr re ra rp rc = Ok self ->
  SketchesDataset_init w sd id tr' re' ra' rp' rc' = Ok self' ->
  stats self' = filter (retained re' ra' rp' rc') (stats self) /\
  sublist (stats self') (stats self) /\
  SketchesDataset_len self' <= SketchesDataset_len self.
Proof.
  intros (H1 & H2 & H3 & H4) Hs Hs'.
  apply SketchesDataset_init_inv in Hs as (lines & rows & Hl & Hr & ->).
  apply SketchesDataset_init_inv in Hs' as (lines' & rows' & Hl' & Hr' & ->).
  rewrite Hr in Hr'. injection Hr' as <-. cbn [stats].
  assert (filter (retained re' ra' rp' rc') rows
          = filter (retained re' ra' rp' rc') (filter (retained re ra rp rc) rows)) as E.
  { rewrite filter_filter_and. apply list_filter_iff. intros r.
    unfold retained. tauto. }
  split; [done|]. split.
  - rewrite E. apply sublist_filter.
  - unfold SketchesDataset_len. cbn [stats]. rewrite E. apply length_filter.
Qed.

Lemma more_flags_fewer_rows_witness :
  stats example_sketches
    = filter (retained true false false false)
        (stats {| sketches_dir := "sketches"; info_dir := "info"; transform := None;
                  invalid := ["n02694662_92-2"];
                  stats := filter (retained false false false false) example_rows |}) /\
  sublist (stats example_sketches)
    (stats {| sketches_dir := "sketches"; info_dir := "info"; transform := None;
              invalid := ["n02694662_92-2"];
              stats := filter (retained false false false false) example_rows |}) /\
  SketchesDataset_len example_sketches
    <= SketchesDataset_len
         {| sketches_dir := "sketches"; info_dir := "info"; transform := None;
            invalid := ["n02694662_92-2"];
            stats := filter (retained false false false false) example_rows |}.
Proof.
  apply (more_flags_fewer_rows example_world "sketches" "info" None None
           false false false false true false false false).
  - vm_compute. tauto.
  - vm_compute. reflexivity.
  - vm_compute. reflexivity.
Defined.

Section Getitem.

Lemma labels_fold_none (l : list string) s :
  s ∉ l -> foldl labels_step ∅ (enumerate l) !! PStr s = None.
Proof.
  induction l as [|x l IH] using rev_ind; intros Hs; [done|].
  rewrite enumerate_snoc, foldl_app. simpl. unfold labels_step at 1. simpl.
  rewrite not_elem_of_app in Hs. destruct Hs as [Hl Hx].
  rewrite !lookup_insert_ne; [by apply IH|done|].
  intros [= ->]. apply Hx. by left.
Qed.

End Getitem.

(** X6: [__getitem__] returns an item only for an index below [__len__];
    from [__len__] on it raises [IndexError]. *)
Theorem getitem_bounds (w : World) (labels_id_map : gmap pyval pyval)
    (self : SketchesDataset) (idx : nat) :
  (SketchesDataset_len self <= idx ->
   SketchesDataset_getitem w labels_id_map self idx = Raise IndexError) /\
  (forall it, SketchesDataset_getitem w labels_id_map self idx = Ok it ->
   idx < SketchesDataset_len self).
Proof.
  unfold SketchesDataset_getitem, SketchesDataset_len. split.
  - intros Hle. by rewrite (proj2 (lookup_ge_None _ _) Hle).
  - intros it. destruct (stats self !! idx) as [row|] eqn:Hrow; [|done].
    intros _. by eapply lookup_lt_Some.
Qed.

(** X7: with the label map generated from the photo folders,
    [__getitem__] labels a sketch by the position of its class folder
    (the category with spaces replaced by underscores) among the sorted
    folder names; a sketch whose class folder is no photo folder raises
    [KeyError], after its image was opened and transformed. *)
Theorem getitem_label (w : World) (photos_dir : string) (names : list string)
    (labels_id_map : gmap pyval pyval) (self : SketchesDataset) (idx : nat)
    (row : stats_row) (im : pil_image) (image : sample) :
  listdir w photos_dir = Ok names ->
  NoDup names ->
  generate_labels_id_map w photos_dir = Ok labels_id_map ->
  stats self !! idx = Some row ->
  files w !! sketch_path self row = Some (ImageFile im) ->
  apply_transform (transform self) im = Ok image ->
  (forall i, sorted names !! i = Some (class_folder row) ->
     SketchesDataset_getitem w labels_id_map self idx = Ok (image, PInt i)) /\
  (class_folder row ∉ names ->
     SketchesDataset_getitem w labels_id_map self idx
     = Raise (KeyError (PStr (class_folder row)))).
Proof.
  intros Hls Hnd Hgen Hrow Hf Htr.
  unfold generate_labels_id_map in Hgen. rewrite Hls in Hgen. simpl in Hgen.
  injection Hgen as <-.
  unfold SketchesDataset_getitem, open_image, dict_get.
  rewrite Hrow, Hf. cbn [rbind].
  unfold apply_transform in Htr. rewrite Htr. cbn [rbind].
  split.
  - intros i Hi.
    destruct (labels_fold_lookup _ i _ (sorted_NoDup names Hnd) Hi) as [_ ->].
    done.
  - intros Hnot. rewrite labels_fold_none; [done|].
    unfold sorted. by rewrite merge_sort_Permutation.
Qed.

(** X8: the lines of invalid-error.txt are read into [self.invalid] and
    used nowhere: two worlds with the same stats.csv give datasets with
    the same rows, the same [__len__] and the same [__getitem__]. *)
Theorem invalid_lines_unused (w w' : World) (sd id : string) (tr : option Transform)
    (re ra rp rc : bool) (self self' : SketchesDataset) :
  read_csv w (path_join id ["stats.csv"]) = read_csv w' (path_join id ["stats.csv"]) ->
  SketchesDataset_init w sd id tr re ra rp rc = Ok self ->
  SketchesDataset_init w' sd id tr re ra rp rc = Ok self' ->
  stats self = stats self' /\
  SketchesDataset_len self = SketchesDataset_len self' /\
  forall w0 labels_id_map idx,
    SketchesDataset_getitem w0 labels_id_map self idx
    = SketchesDataset_getitem w0 labels_id_map self' idx.
Proof.
  intros Hcsv Hs Hs'.
  apply SketchesDataset_init_inv in Hs as (lines & rows & Hl & Hr & ->).
  apply SketchesDataset_init_inv in Hs' as (lines' & rows' & Hl' & Hr' & ->).
  rewrite Hcsv, Hr' in Hr. injection Hr as ->. done.
Qed.

Lemma invalid_lines_unused_witness :
  stats example_sketches
    = stats {| sketches_dir := "sketches"; info_dir := "info"; transform := None;
               invalid := []; stats := filter (retained true false false false) example_rows |} /\
  SketchesDataset_len example_sketches
    = SketchesDataset_len
        {| sketches_dir := "sketches"; info_dir := "info"; transform := None;
           invalid := []; stats := filter (retained true false false false) example_rows |} /\
  forall w0 labels_id_map idx,
    SketchesDataset_getitem w0 labels_id_map example_sketches idx
    = SketchesDataset_getitem w0 labels_id_map
        {| sketches_dir := "sketches"; info_dir := "info"; transform := None;
           invalid := []; stats := filter (retained true false false false) example_rows |} idx.
Proof.
  apply (invalid_lines_unused example_world example_world' "sketches" "info" None
           true false false false).
  - vm_compute. reflexivity.
  - vm_compute. reflexivity.
  - vm_compute. reflexivity.
Defined.

Lemma getitem_label_witness :
  (forall i, sorted ["ant"; "alarm_clock"] !! i = Some "alarm_clock" ->
     SketchesDataset_getitem example_world example_labels example_sketches 0
     = Ok (PIL [[[255%N; 0%N]]; [[255%N; 0%N]]; [[255%N; 0%N]]], PInt i)) /\
  ("alarm_clock" ∉ ["ant"; "alarm_clock"] ->
     SketchesDataset_getitem example_world example_labels example_sketches 0
     = Raise (KeyError (PStr "alarm_clock"))).
Proof.
  apply (getitem_label example_world "photos" ["ant"; "alarm_clock"] example_labels
           example_sketches 0
           {| Category := "alarm clock"; ImageNetID := "n02694662_92"; SketchID := 1;
              col_Error := 0; col_Ambiguous := 0; col_WrongPose := 0; col_Context := 0 |}
           [[[255%N; 0%N]]; [[255%N; 0%N]]; [[255%N; 0%N]]]
           (PIL [[[255%N; 0%N]]; [[255%N; 0%N]]; [[255%N; 0%N]]])).
  - vm_compute. reflexivity.
  - apply (bool_decide_unpack _). vm_compute. exact I.
  - reflexivity.
  - reflexivity.
  - vm_compute. reflexivity.
  - reflexivity.
Defined.

Section Imagenet.

Context (w : World) (photos_dir : string).

Lemma for_each_app {A S} (body : S -> A -> result S) l1 l2 (s : S) :
  for_each body (l1 ++ l2) s = (s' <- for_each body l1 s ;; for_each body l2 s').
Proof.
  revert s. induction l1 as [|x l1 IH]; intros s; simpl; [done|].
  destruct (body s x); simpl; [apply IH|done].
Qed.

Lemma imagenet_step_id d folder id :
  first_id w photos_dir folder = Some id ->
  imagenet_step w photos_dir d folder = Ok (<[folder := id]> (<[id := folder]> d)).
Proof.
  unfold first_id, imagenet_step.
  destruct (listdir w _) as [[|file names]|e]; try done. by intros [= <-].
Qed.

(** Folders with an id each: the loop inserts the pairs in order. *)
Lemma imagenet_fold folders ids d :
  Forall2 (fun folder id => first_id w photos_dir folder = Some id) folders ids ->
  for_each (imagenet_step w photos_dir) folders d
  = Ok (foldl put_pair d
          (zip folders ids)).
Proof.
  intros H. revert d. induction H as [|folder id folders ids Hid _ IH]; intros d.
  - done.
  - simpl. rewrite (imagenet_step_id _ _ _ Hid). simpl. apply IH.
Qed.

Lemma imagenet_lookup folders ids i folder id :
  NoDup folders -> NoDup ids ->
  (forall x, x ∈ ids -> x ∉ folders) ->
  length folders = length ids ->
  folders !! i = Some folder -> ids !! i = Some id ->
  let d := foldl put_pair ∅
             (zip folders ids) in
  d !! folder = Some id /\ d !! id = Some folder.
Proof.
  revert ids i folder id.
  induction folders as [|f folders IH] using rev_ind;
    intros ids i folder id Hnf Hni Hdis Hlen Hf Hi d; [done|].
  destruct ids as [|x ids _] using rev_ind.
  { rewrite length_app in Hlen. simpl in Hlen. lia. }
  rewrite !length_app in Hlen. simpl in Hlen.
  assert (length folders = length ids) as Hlen' by lia.
  subst d. rewrite zip_with_app by done. rewrite foldl_app. simpl.
  unfold put_pair at 1 3. simpl.
  apply NoDup_app in Hnf as (Hnf & Hf1 & _).
  apply NoDup_app in Hni as (Hni & Hi1 & _).
  assert (f ∉ folders) as Hff by (intros H; apply (Hf1 f H); by left).
  assert (x ∉ ids) as Hxx by (intros H; apply (Hi1 x H); by left).
  destruct (decide (i < length folders)) as [Hlt|Hge].
  - rewrite lookup_app_l in Hf by done.
    rewrite lookup_app_l in Hi by lia.
    destruct (IH ids i folder id Hnf Hni) as [H1 H2]; try done.
    { intros y Hy Hy'. apply (Hdis y); rewrite elem_of_app; by left. }
    assert (folder ∈ folders) as Hfin by by eapply list_elem_of_lookup_2.
    assert (id ∈ ids) as Hiin by by eapply list_elem_of_lookup_2.
    assert (folder <> f) by (by intros ->).
    assert (id <> x) by (by intros ->).
    assert (folder <> x).
    { intros ->. apply (Hdis x); rewrite elem_of_app; [by right; left | by left]. }
    assert (id <> f).
    { intros ->. apply (Hdis f); rewrite elem_of_app; [by left | by right; left]. }
    by rewrite !lookup_insert_ne by done.
  - assert (i = length folders) as ->.
    { apply lookup_lt_Some in Hf. rewrite length_app in Hf. simpl in Hf. lia. }
    rewrite list_lookup_middle in Hf by done.
    rewrite list_lookup_middle in Hi by done.
    injection Hf as ->. injection Hi as ->.
    assert (folder <> id).
    { intros ->. apply (Hdis id); rewrite elem_of_app; by right; left. }
    rewrite lookup_insert_eq.
    by rewrite lookup_insert_ne, lookup_insert_eq by done.
Qed.

End Imagenet.

Section ImagenetErrors.

Context (w : World) (photos_dir : string).

Lemma imagenet_empty_folder folders d :
  Forall (fun f => exists ns, listdir w (path_join photos_dir [f]) = Ok ns) folders ->
  Exists (fun f => listdir w (path_join photos_dir [f]) = Ok []) folders ->
  for_each (imagenet_step w photos_dir) folders d = Raise IndexError.
Proof.
  intros Hall Hex. revert d.
  induction folders as [|f folders IH]; intros d; [by inversion Hex|].
  apply Forall_cons_1 in Hall as [[ns Hns] Hall]. simpl.
  unfold imagenet_step at 1. rewrite Hns. simpl.
  destruct ns as [|file ns]; [done|]. simpl.
  apply IH; [done|].
  apply Exists_cons in Hex as [Hf|Hex]; [|done].
  rewrite Hns in Hf. discriminate Hf.
Qed.

End ImagenetErrors.

(** X9: [generate_imagenet_id_class_map] raises [FileNotFoundError] when
    the photos directory is missing (nothing has that path), and
    [IndexError] when one of its class folders holds no file; when the path
    of the photos directory is that of a regular file it raises
    [NotADirectoryError]. *)
Theorem imagenet_map_errors (w : World) (photos_dir : string) :
  (dirs w !! photos_dir = None -> files w !! photos_dir = None ->
   generate_imagenet_id_class_map w photos_dir
   = Raise (FileNotFoundError photos_dir)) /\
  (forall folders,
     listdir w photos_dir = Ok folders ->
     Forall (fun f => exists ns, listdir w (path_join photos_dir [f]) = Ok ns) folders ->
     Exists (fun f => listdir w (path_join photos_dir [f]) = Ok []) folders ->
     generate_imagenet_id_class_map w photos_dir = Raise IndexError) /\
  (forall f, dirs w !! photos_dir = None -> files w !! photos_dir = Some f ->
   generate_imagenet_id_class_map w photos_dir
   = Raise (NotADirectoryError photos_dir)).
Proof.
  split; [|split].
  - intros H H'. unfold generate_imagenet_id_class_map, listdir. by rewrite H, H'.
  - intros folders Hls Hall Hex. unfold generate_imagenet_id_class_map.
    rewrite Hls. simpl. by apply imagenet_empty_folder.
  - intros f H H'. unfold generate_imagenet_id_class_map, listdir. by rewrite H, H'.
Qed.

(** With an empty folder "bat". *)
Example imagenet_map_empty_folder :
  generate_imagenet_id_class_map photo_world_empty_folder "photos" = Raise IndexError.
Proof. vm_compute. reflexivity. Qed.

(** X10: when every class folder holds a file, the folder names are
    distinct, the ImageNet ids taken from the first file of each folder
    are distinct and none of them is a folder name, the dictionary maps
    every folder to its id and that id back to the folder. *)
Theorem imagenet_id_class_map_inverse (w : World) (photos_dir : string)
    (folders ids : list string) :
  listdir w photos_dir = Ok folders ->
  Forall2 (fun folder id => first_id w photos_dir folder = Some id) folders ids ->
  NoDup folders ->
  NoDup ids ->
  (forall x, x ∈ ids -> x ∉ folders) ->
  exists d,
    generate_imagenet_id_class_map w photos_dir = Ok d /\
    forall i folder id,
      folders !! i = Some folder -> ids !! i = Some id ->
      d !! folder = Some id /\ d !! id = Some folder.
Proof.
  intros Hls Hids Hnf Hni Hdis. unfold generate_imagenet_id_class_map.
  rewrite Hls. simpl. rewrite (imagenet_fold w photos_dir folders ids _ Hids).
  eexists. split; [reflexivity|].
  intros i folder id Hf Hi.
  apply (imagenet_lookup folders ids i); try done.
  by eapply Forall2_length.
Qed.

Lemma imagenet_id_class_map_inverse_witness :
  exists d,
    generate_imagenet_id_class_map photo_world "photos" = Ok d /\
    forall i folder id,
      ["ant"; "alarm_clock"] !! i = Some folder ->
      ["n02219486"; "n02694662"] !! i = Some id ->
      d !! folder = Some id /\ d !! id = Some folder.
Proof.
  apply (imagenet_id_class_map_inverse photo_world "photos"
           ["ant"; "alarm_clock"] ["n02219486"; "n02694662"]).
  - vm_compute. reflexivity.
  - repeat constructor.
  - apply (bool_decide_unpack _). vm_compute. exact I.
  - apply (bool_decide_unpack _). vm_compute. exact I.
  - intros x Hx. apply (bool_decide_unpack _).
    repeat (apply elem_of_cons in Hx as [->|Hx]; [vm_compute; exact I|]).
    by apply elem_of_nil in Hx.
Defined.

Section Numeric.

Local Open Scope R_scope.

Lemma Rsum_bounds lo hi l :
  Forall (fun x => lo <= x <= hi) l ->
  INR (length l) * lo <= Rsum l <= INR (length l) * hi.
Proof.
  induction 1 as [|x l Hx _ IH].
  - simpl. unfold Rsum. simpl. lra.
  - rewrite length_cons, S_INR. unfold Rsum in *. simpl. lra.
Qed.

Lemma Rsum_perm l l' : l ≡ₚ l' -> Rsum l = Rsum l'.
Proof.
  unfold Rsum. induction 1; simpl; try lra; try congruence.
Qed.

Lemma Rminimum_perm a l l' : l ≡ₚ l' -> Rminimum a l = Rminimum a l'.
Proof.
  unfold Rminimum. induction 1 as [|x l l' _ IH|x y l|l1 l2 l3 _ IH1 _ IH2]; simpl.
  - done.
  - by rewrite IH.
  - by rewrite !Rmin_assoc, (Rmin_comm y x).
  - by rewrite IH1.
Qed.

Lemma Rmaximum_perm a l l' : l ≡ₚ l' -> Rmaximum a l = Rmaximum a l'.
Proof.
  unfold Rmaximum. induction 1 as [|x l l' _ IH|x y l|l1 l2 l3 _ IH1 _ IH2]; simpl.
  - done.
  - by rewrite IH.
  - by rewrite !Rmax_assoc, (Rmax_comm y x).
  - by rewrite IH1.
Qed.

Lemma concat_perm {A} (ls ls' : list (list A)) : ls ≡ₚ ls' -> concat ls ≡ₚ concat ls'.
Proof.
  induction 1 as [|x l l' _ IH|x y l|l1 l2 l3 _ IH1 _ IH2]; simpl.
  - done.
  - by rewrite IH.
  - rewrite !app_assoc. f_equiv. apply Permutation_app_comm.
  - by rewrite IH1.
Qed.

Lemma channel_pixels_perm imgs imgs' j :
  imgs ≡ₚ imgs' -> channel_pixels imgs j ≡ₚ channel_pixels imgs' j.
Proof.
  intros H. unfold channel_pixels. apply concat_perm. by apply Permutation_map.
Qed.

Lemma all_pixels_perm imgs imgs' : imgs ≡ₚ imgs' -> all_pixels imgs ≡ₚ all_pixels imgs'.
Proof.
  intros H. unfold all_pixels. apply concat_perm. by apply Permutation_map.
Qed.

Lemma map_seq_const (f : nat -> R) c :
  (forall j, (j < c)%nat -> f j = f 0%nat) -> map f (seq 0 c) = replicate c (f 0%nat).
Proof.
  intros H. apply list_eq. intros i.
  rewrite list_lookup_fmap.
  destruct (decide (i < c)%nat) as [Hi|Hi].
  - rewrite lookup_seq_lt by done. simpl.
    rewrite lookup_replicate_2 by done. by rewrite H.
  - rewrite lookup_seq_ge by lia. simpl. symmetry.
    apply lookup_replicate_None. lia.
Qed.

Context (c h w : nat).

Lemma channel_pixels_length imgs j :
  Forall (has_shape c h w) imgs -> (j < c)%nat ->
  length (channel_pixels imgs j) = (length imgs * h * w)%nat.
Proof.
  intros Hall Hj. unfold channel_pixels.
  induction Hall as [|t imgs [Hc Hch] _ IH]; simpl; [done|].
  rewrite length_app, IH.
  assert (j < length t)%nat as Hjt by lia.
  destruct (lookup_lt_is_Some_2 t j Hjt) as [ch Hl].
  rewrite (nth_lookup_Some _ _ _ _ Hl).
  destruct (Forall_lookup_1 _ _ _ _ Hch Hl) as [E1 E2].
  rewrite (length_concat_uniform w) by done. rewrite E1. lia.
Qed.

Lemma channel_pixels_entries lo hi imgs j :
  Forall (entries_in lo hi) imgs ->
  Forall (fun x => lo <= x <= hi) (channel_pixels imgs j).
Proof.
  intros Hall. unfold channel_pixels.
  apply Forall_concat, Forall_fmap. eapply Forall_impl; [exact Hall|].
  intros t Ht. simpl. apply Forall_concat.
  destruct (nth_lookup_or_length t j []) as [Hl|Hl].
  - by apply (Forall_lookup_1 _ _ _ _ Ht Hl).
  - rewrite nth_overflow by done. constructor.
Qed.

End Numeric.

(** X11: when every pixel of a non-empty dataset of C×H×W tensors lies in
    [lo, hi], so does every entry of the mean [dataset_mean] returns, one
    per channel. *)
Theorem dataset_mean_bounds (dataset : Dataset) (imgs : list tensor3)
    (c h w batch_size : nat) (lo hi : R) :
  stores dataset imgs ->
  Forall (has_shape c h w) imgs ->
  imgs <> [] ->
  0 < c -> 0 < h -> 0 < w ->
  0 < batch_size ->
  Forall (entries_in lo hi) imgs ->
  exists m,
    value (dataset_mean dataset batch_size) = Ok (Vector m) /\
    length m = c /\
    Forall (fun x => lo <= x <= hi)%R m.
Proof.
  intros Hst Hsh Hne Hc Hh Hw Hbs Hin.
  exists (mean_ref c h w imgs). split; [|split].
  - by rewrite (dataset_mean_run dataset imgs c h w).
  - apply length_mean_ref.
  - unfold mean_ref. apply Forall_fmap, Forall_forall. intros j Hj. simpl.
    apply elem_of_seq in Hj.
    pose proof (Rsum_bounds lo hi _ (channel_pixels_entries lo hi imgs j Hin)) as Hb.
    rewrite (channel_pixels_length c h w) in Hb by (done || lia).
    assert (0 < length imgs * h * w) as Hn.
    { destruct imgs; simpl; [done|]. nia. }
    assert (0 < INR (length imgs * h * w))%R as Hpos by (apply lt_0_INR; lia).
    set (n := INR (length imgs * h * w)) in *.
    set (s := Rsum (channel_pixels imgs j)) in *.
    split.
    + apply (Rmult_le_reg_r n); [done|].
      unfold Rdiv. rewrite Rmult_assoc, Rinv_l by lra. lra.
    + apply (Rmult_le_reg_r n); [done|].
      unfold Rdiv. rewrite Rmult_assoc, Rinv_l by lra. lra.
Qed.

Lemma two_images_entries : Forall (entries_in 0 3) two_images.
Proof. repeat constructor; lra. Qed.

Lemma dataset_mean_bounds_witness :
  exists m,
    value (dataset_mean (of_tensors two_images) 1) = Ok (Vector m) /\
    length m = 1 /\
    Forall (fun x => 0 <= x <= 3)%R m.
Proof.
  apply (dataset_mean_bounds (of_tensors two_images) two_images 1 1 2 1 0 3).
  - apply of_tensors_stores.
  - apply two_images_shape.
  - discriminate.
  - lia.
  - lia.
  - lia.
  - lia.
  - apply two_images_entries.
Defined.

(** X12: when in every image all channels are equal, all entries of the
    mean are equal, and so are all entries of the standard deviation
    around it. *)
Theorem grey_statistics (dataset : Dataset) (imgs : list tensor3)
    (c h w batch_size : nat) :
  stores dataset imgs ->
  Forall (has_shape c h w) imgs ->
  imgs <> [] ->
  0 < c -> 0 < h -> 0 < w ->
  0 < batch_size ->
  Forall (grey c) imgs ->
  exists m s,
    value (dataset_mean dataset batch_size) = Ok (Vector (replicate c m)) /\
    value (dataset_std dataset (Vector (replicate c m)) batch_size)
      = Ok (replicate c s).
Proof.
  intros Hst Hsh Hne Hc Hh Hw Hbs Hgrey.
  assert (forall j, j < c -> channel_pixels imgs j = channel_pixels imgs 0) as Hpx.
  { intros j Hj. unfold channel_pixels. f_equal.
    apply map_ext_Forall. eapply Forall_impl; [exact Hgrey|].
    intros t Ht. simpl. by rewrite (Ht j Hj). }
  set (m := (Rsum (channel_pixels imgs 0) / INR (length imgs * h * w))%R).
  set (s := sqrt (Rsum (map (fun x => (x - m) ^ 2)%R (channel_pixels imgs 0))
                  / INR (length imgs * h * w))).
  exists m, s. split.
  - rewrite (dataset_mean_run dataset imgs c h w) by done. simpl.
    do 2 f_equal. unfold mean_ref.
    rewrite (map_seq_const _ c); [done|].
    intros j Hj. by rewrite (Hpx j Hj).
  - rewrite (dataset_std_run dataset imgs c h w) by done.
    rewrite decide_True by (left; by rewrite length_replicate).
    unfold bc_len. rewrite decide_True by (by rewrite length_replicate).
    simpl. rewrite (std_of_sqdev c h w) by (done || by rewrite length_replicate).
    f_equal. unfold std_ref.
    rewrite (map_seq_const _ c).
    + rewrite (nth_lookup (replicate c m)), lookup_replicate_2 by done. done.
    + intros j Hj. rewrite (Hpx j Hj).
      rewrite !(nth_lookup (replicate c m)), !lookup_replicate_2 by (done || lia).
      done.
Qed.

Lemma grey_statistics_witness :
  exists m s,
    value (dataset_mean (of_tensors grey_images) 1) = Ok (Vector (replicate 3 m)) /\
    value (dataset_std (of_tensors grey_images) (Vector (replicate 3 m)) 1)
      = Ok (replicate 3 s).
Proof.
  apply (grey_statistics (of_tensors grey_images) grey_images 3 1 2 1).
  - apply of_tensors_stores.
  - repeat (constructor || split).
  - discriminate.
  - lia.
  - lia.
  - lia.
  - lia.
  - repeat constructor; intros [|[|[|j]]] Hj; (reflexivity || lia).
Defined.

Section Order.

Context (c h w : nat).

Lemma mean_ref_perm imgs imgs' :
  imgs ≡ₚ imgs' -> mean_ref c h w imgs = mean_ref c h w imgs'.
Proof.
  intros Hp. unfold mean_ref. apply map_ext. intros j.
  rewrite (Rsum_perm _ _ (channel_pixels_perm imgs imgs' j Hp)).
  by rewrite (Permutation_length Hp).
Qed.

Lemma sum0_perm n (vs vs' : list (list R)) :
  Forall (fun v => length v = n) vs ->
  vs ≡ₚ vs' -> sum0 n vs = sum0 n vs'.
Proof.
  intros Hall Hp.
  assert (Forall (fun v => length v = n) vs') as Hall' by by rewrite <- Hp.
  apply (nth_ext _ _ 0%R 0%R).
  - by rewrite !length_sum0.
  - intros j _. rewrite !nth_sum0 by done.
    apply Rsum_perm. by apply Permutation_map.
Qed.

End Order.

(** X13: the statistics do not depend on the order of the items: two
    non-empty datasets of C×H×W tensors that hold the same images in
    different orders have the same mean, the same standard deviation
    around any mean, and the same scaling factor. *)
Theorem order_irrelevant (d d' : Dataset) (imgs imgs' : list tensor3)
    (mean : pynum) (c h w b b' : nat) :
  stores d imgs ->
  stores d' imgs' ->
  imgs ≡ₚ imgs' ->
  Forall (has_shape c h w) imgs ->
  imgs <> [] ->
  0 < c -> 0 < h -> 0 < w ->
  0 < b -> 0 < b' ->
  value (dataset_mean d b) = value (dataset_mean d' b') /\
  value (dataset_std d mean b) = value (dataset_std d' mean b') /\
  value (dataset_scaling d b) = value (dataset_scaling d' b').
Proof.
  intros Hst Hst' Hp Hsh Hne Hc Hh Hw Hb Hb'.
  assert (Forall (has_shape c h w) imgs') as Hsh' by by rewrite <- Hp.
  assert (imgs' <> []) as Hne'.
  { intros ->. by apply Permutation_nil_r in Hp. }
  split; [|split].
  - rewrite (dataset_mean_run d imgs c h w), (dataset_mean_run d' imgs' c h w) by done.
    simpl. by rewrite (mean_ref_perm c h w imgs imgs').
  - destruct mean as [x|mean].
    + by rewrite (dataset_std_run_scalar d imgs c h w),
        (dataset_std_run_scalar d' imgs' c h w).
    + rewrite (dataset_std_run d imgs c h w), (dataset_std_run d' imgs' c h w) by done.
      case_decide as Hok; [|done]. simpl.
      rewrite (Permutation_length Hp).
      rewrite (sum0_perm _ (map (sqdev mean) imgs) (map (sqdev mean) imgs')); [done| |].
      * apply Forall_fmap. eapply Forall_impl; [exact Hsh|].
        intros t Ht. simpl. by apply (length_sqdev c h w).
      * by apply Permutation_map.
  - rewrite (dataset_scaling_run d imgs c h w), (dataset_scaling_run d' imgs' c h w)
      by done.
    simpl. pose proof (all_pixels_perm imgs imgs' Hp) as Hpx.
    by rewrite (Rminimum_perm _ _ _ Hpx), (Rmaximum_perm _ _ _ Hpx).
Qed.

Lemma order_irrelevant_witness :
  value (dataset_mean (of_tensors two_images) 1)
    = value (dataset_mean (of_tensors (reverse two_images)) 2) /\
  value (dataset_std (of_tensors two_images) (Vector [1%R]) 1)
    = value (dataset_std (of_tensors (reverse two_images)) (Vector [1%R]) 2) /\
  value (dataset_scaling (of_tensors two_images) 1)
    = value (dataset_scaling (of_tensors (reverse two_images)) 2).
Proof.
  apply (order_irrelevant (of_tensors two_images) (of_tensors (reverse two_images))
           two_images (reverse two_images) (Vector [1%R]) 1 1 2 1 2).
  - apply of_tensors_stores.
  - apply of_tensors_stores.
  - symmetry. apply reverse_Permutation.
  - apply two_images_shape.
  - discriminate.
  - lia.
  - lia.
  - lia.
  - lia.
  - lia.
Defined.

Section Broadcast.

Context (c h w : nat).

Lemma sqdev_single m t :
  has_shape c h w t -> sqdev [m] t = sqdev (replicate c m) t.
Proof.
  intros [Hc _]. unfold sqdev, sub_broadcast.
  rewrite length_map, length_replicate, Hc. simpl.
  rewrite (decide_True (P := c = c)) by done.
  destruct (decide (c = 1)) as [->|Hne].
  - done.
  - simpl. rewrite zip_with_replicate_r by (rewrite length_map; lia). done.
Qed.

End Broadcast.

(** X14: what [dataset_std] does with its [mean] on a non-empty dataset of
    C×H×W tensors: a tensor with one entry is broadcast to every channel;
    a tensor whose number of entries is neither C nor 1 is refused with
    [RuntimeError] when C is not 1; a float raises [AttributeError]. *)
Theorem dataset_std_mean_shapes (dataset : Dataset) (imgs : list tensor3)
    (c h w batch_size : nat) :
  stores dataset imgs ->
  Forall (has_shape c h w) imgs ->
  imgs <> [] ->
  0 < c -> 0 < h -> 0 < w ->
  0 < batch_size ->
  (forall m,
     value (dataset_std dataset (Vector [m]) batch_size)
     = Ok (std_ref c h w (replicate c m) imgs)) /\
  (forall mean,
     length mean <> c -> length mean <> 1 -> c <> 1 ->
     value (dataset_std dataset (Vector mean) batch_size) = Raise RuntimeError) /\
  (forall x,
     value (dataset_std dataset (Scalar x) batch_size) = Raise AttributeError).
Proof.
  intros Hst Hsh Hne Hc Hh Hw Hbs. split; [|split].
  - intros m. rewrite (dataset_std_run dataset imgs c h w) by done.
    rewrite decide_True by (right; left; done).
    assert (bc_len c (length [m]) = c) as ->.
    { unfold bc_len. simpl. repeat case_decide; done. }
    simpl. f_equal.
    rewrite <- (std_of_sqdev c h w (replicate c m)) by (done || by rewrite length_replicate).
    do 2 f_equal. apply map_ext_Forall. eapply Forall_impl; [exact Hsh|].
    intros t Ht. simpl. by apply (sqdev_single c h w).
  - intros mean H1 H2 H3. rewrite (dataset_std_run dataset imgs c h w) by done.
    rewrite decide_False; [done|]. unfold bc_ok. lia.
  - intros x. by rewrite (dataset_std_run_scalar dataset imgs c h w).
Qed.

Lemma dataset_std_mean_shapes_witness :
  (forall m,
     value (dataset_std (of_tensors grey_images) (Vector [m]) 1)
     = Ok (std_ref 3 1 2 (replicate 3 m) grey_images)) /\
  (forall mean,
     length mean <> 3 -> length mean <> 1 -> 3 <> 1 ->
     value (dataset_std (of_tensors grey_images) (Vector mean) 1) = Raise RuntimeError) /\
  (forall x,
     value (dataset_std (of_tensors grey_images) (Scalar x) 1) = Raise AttributeError).
Proof.
  apply (dataset_std_mean_shapes (of_tensors grey_images) grey_images 3 1 2 1).
  - apply of_tensors_stores.
  - repeat (constructor || split).
  - discriminate.
  - lia.
  - lia.
  - lia.
  - lia.
Defined.

Section SketchTransform.

Local Open Scope R_scope.

Lemma byte_unit b : (b <= 255)%N -> 0 <= IZR (Z.of_N b) / 255 <= 1.
Proof.
  intros Hb.
  assert (0 <= IZR (Z.of_N b) <= 255) as [H1 H2].
  { split; [apply IZR_le; lia|]. apply IZR_le. lia. }
  split.
  - apply Rmult_le_reg_r with 255; [lra|].
    unfold Rdiv. rewrite Rmult_assoc, Rinv_l by lra. lra.
  - apply Rmult_le_reg_r with 255; [lra|].
    unfold Rdiv. rewrite Rmult_assoc, Rinv_l by lra. lra.
Qed.

Lemma to_tensor_entries im : bytes_ok im -> entries_in 0 1 (to_tensor im).
Proof.
  unfold bytes_ok, entries_in, to_tensor. intros H.
  apply Forall_fmap. eapply Forall_impl; [exact H|]. intros band Hband. simpl.
  apply Forall_fmap. eapply Forall_impl; [exact Hband|]. intros row Hrow. simpl.
  apply Forall_fmap. eapply Forall_impl; [exact Hrow|]. intros b Hb. simpl.
  by apply byte_unit.
Qed.

End SketchTransform.

(** X15: the transform of the sketches, [ToTensor] then [InvertTransform],
    turns a byte b into 1 - b/255: white (255) becomes 0 and black (0)
    becomes 1, the shape is kept and bytes up to 255 give entries in
    [0, 1].  In the other order the transform raises [TypeError]. *)
Theorem sketch_transform (im : pil_image) :
  Compose [ToTensor; InvertTransform] (PIL im)
    = Ok (Tensor (map (map (map (fun b => (1 - IZR (Z.of_N b) / 255)%R))) im)) /\
  (1 - IZR (Z.of_N 255) / 255 = 0)%R /\
  (1 - IZR (Z.of_N 0) / 255 = 1)%R /\
  (forall c h w, pil_shape c h w im ->
     has_shape c h w (map (map (map (fun b => (1 - IZR (Z.of_N b) / 255)%R))) im)) /\
  (bytes_ok im ->
     entries_in 0 1 (map (map (map (fun b => (1 - IZR (Z.of_N b) / 255)%R))) im)) /\
  Compose [InvertTransform; ToTensor] (PIL im) = Raise TypeError.
Proof.
  assert (map (map (map (fun b => (1 - IZR (Z.of_N b) / 255)%R))) im
          = rsub 1 (to_tensor im)) as E.
  { unfold rsub, to_tensor. rewrite map_map. apply map_ext. intros band.
    rewrite map_map. apply map_ext. intros row. by rewrite map_map. }
  rewrite E. split; [done|]. split; [simpl; lra|]. split; [simpl; lra|].
  split; [|split; [|done]].
  - intros c h w Hs. by apply rsub_shape, to_tensor_shape.
  - intros Hb. by apply rsub_entries, to_tensor_entries.
Qed.


Section Range.

Local Open Scope R_scope.

Lemma scaling_ref_bound imgs y :
  In y (all_pixels imgs) -> Rabs y <= scaling_ref imgs.
Proof.
  intros Hy. unfold scaling_ref.
  assert (Rminimum 1 (all_pixels imgs) <= y <= Rmaximum (-1) (all_pixels imgs)) as [H1 H2].
  { split.
    - destruct (Rminimum_is_min 1 (all_pixels imgs)) as [_ H]. apply H. by right.
    - destruct (Rmaximum_is_max (-1) (all_pixels imgs)) as [_ H]. apply H. by right. }
  set (lo := Rminimum 1 (all_pixels imgs)) in *.
  set (hi := Rmaximum (-1) (all_pixels imgs)) in *.
  unfold Rmax, Rabs.
  repeat (destruct (Rle_dec _ _)); repeat (destruct (Rcase_abs _)); lra.
Qed.

Lemma scaling_ref_entries imgs (t : tensor3) :
  t ∈ imgs -> entries_in (- scaling_ref imgs) (scaling_ref imgs) t.
Proof.
  intros Ht. unfold entries_in.
  apply Forall_forall. intros ch Hch.
  apply Forall_forall. intros row Hrow.
  apply Forall_forall. intros y Hy.
  assert (In y (all_pixels imgs)) as Hin.
  { unfold all_pixels, flat. apply in_concat. exists (concat (concat t)). split.
    - apply in_map_iff. exists t. split; [done|]. by apply list_elem_of_In.
    - apply in_concat. exists row. split; [|by apply list_elem_of_In].
      apply in_concat. exists ch. split; by apply list_elem_of_In. }
  apply scaling_ref_bound in Hin.
  unfold Rabs in Hin. destruct (Rcase_abs y); lra.
Qed.

Lemma scaling_ref_nonneg imgs : 0 <= scaling_ref imgs.
Proof.
  unfold scaling_ref. etrans; [apply Rabs_pos|apply Rmax_l].
Qed.

(** Dividing by a scaling factor that bounds the mean-subtracted entries
    brings them into [-1, 1]. *)
Lemma normalize_range (mean : list R) s (t : tensor3) :
  length mean = 3%nat -> length t = 3%nat -> 0 < s ->
  entries_in (- s) s (normalize mean [1; 1; 1] t) ->
  entries_in (-1) 1 (normalize mean [s; s; s] t).
Proof.
  intros Hm Ht Hs.
  destruct mean as [|m1 [|m2 [|m3 [|]]]]; try done.
  destruct t as [|c1 [|c2 [|c3 [|]]]]; try done.
  unfold entries_in, normalize. simpl.
  assert (forall m ch,
            Forall (Forall (fun x => - s <= x <= s))
              (map (map (fun x => (x - m) / 1)) ch) ->
            Forall (Forall (fun x => -1 <= x <= 1))
              (map (map (fun x => (x - m) / s)) ch)) as Hch.
  { intros m ch H. apply Forall_fmap.
    apply (proj1 (Forall_fmap (map (fun x => (x - m) / 1)) _ ch)) in H.
    eapply Forall_impl; [exact H|]. intros row Hrow. simpl in *.
    apply Forall_fmap.
    apply (proj1 (Forall_fmap (fun x => (x - m) / 1) _ row)) in Hrow.
    eapply Forall_impl; [exact Hrow|]. intros x Hx. simpl in *.
    assert ((x - m) / 1 = x - m) as E by (field).
    rewrite E in Hx.
    split; apply (Rmult_le_reg_r s); try done;
      unfold Rdiv; rewrite Rmult_assoc, Rinv_l by lra; lra. }
  intros H.
  apply Forall_cons_1 in H as [H1 H]. apply Forall_cons_1 in H as [H2 H].
  apply Forall_cons_1 in H as [H3 _].
  repeat constructor; by apply Hch.
Qed.

End Range.

(** X17: the datasets of the "Image Loading" cells, normalised by the mean
    and the scaling factor computed before, have every entry of every item
    in [-1, 1], when the scaling factors are not 0. *)
Theorem loaded_datasets_range (w : World) (labels_id_map : gmap pyval pyval)
    (photos : list (pil_image * nat)) (lines : list string)
    (rows : list stats_row) (ims : list pil_image) (h wd h' wd' : nat) :
  photos <> [] ->
  Forall (fun p => pil_shape 3 h wd (fst p)) photos ->
  files w !! path_join INFO_DIR ["invalid-error.txt"] = Some (TextFile lines) ->
  files w !! path_join INFO_DIR ["stats.csv"] = Some (CsvFile rows) ->
  sketches_present w labels_id_map rows ims ->
  Forall (pil_shape 3 h' wd') ims ->
  let ps := map (fun p => to_tensor (fst p)) photos in
  let ss := map (fun im => rsub 1 (to_tensor im)) ims in
  let photos_mean := mean_ref 3 h wd ps in
  let sketches_mean := mean_ref 3 h' wd' ss in
  let photos_scaling := scaling_ref (map (normalize photos_mean [1; 1; 1]%R) ps) in
  let sketches_scaling := scaling_ref (map (normalize sketches_mean [1; 1; 1]%R) ss) in
  photos_scaling <> 0%R ->
  sketches_scaling <> 0%R ->
  exists photos_dataset sketches_dataset,
    loading_datasets w labels_id_map photos
      photos_mean photos_scaling sketches_mean sketches_scaling
    = Ok (photos_dataset, sketches_dataset) /\
    len photos_dataset = length photos /\
    len sketches_dataset = length ims /\
    (forall i, i < length photos ->
       exists t label, getitem photos_dataset i = Ok (Tensor t, label) /\
                       entries_in (-1) 1 t) /\
    (forall i, i < length ims ->
       exists t label, getitem sketches_dataset i = Ok (Tensor t, label) /\
                       entries_in (-1) 1 t).
Proof.
  intros Hpne Hpsh Hinv Hcsv Hsk Hish ps ss pm sm psc ssc Hp0 Hs0.
  assert (0 < psc)%R as Hppos by (pose proof (scaling_ref_nonneg (map (normalize pm [1; 1; 1]%R) ps)); subst psc; lra).
  assert (0 < ssc)%R as Hspos by (pose proof (scaling_ref_nonneg (map (normalize sm [1; 1; 1]%R) ss)); subst ssc; lra).
  assert (forall s : R, (0 < s)%R -> Forall (fun x => x <> 0%R) [s; s; s]) as Hnz.
  { intros s Hs. repeat constructor; lra. }
  unfold loading_datasets, SketchesDataset_init, open_lines, read_csv.
  rewrite ImageFolder_ok by done.
  rewrite Hinv, Hcsv.
  cbn [rbind remove_error_default remove_ambiguous_default
       remove_pose_default remove_context_default].
  eexists _, _. split; [reflexivity|].
  split; [done|]. split.
  { simpl. unfold SketchesDataset_len. simpl. by apply Forall2_length in Hsk. }
  split.
  - intros i Hi.
    destruct (lookup_lt_is_Some_2 photos i Hi) as [[im target] Him].
    pose proof (Forall_lookup_1 _ _ _ _ Hpsh Him) as [Hc _]. simpl in Hc.
    exists (normalize pm [psc; psc; psc] (to_tensor im)), (PInt target).
    split.
    + cbn [getitem ImageFolder_dataset]. rewrite Him.
      cbn [Compose ToTensor rbind].
      rewrite Normalize_ok; [done| | |by apply Hnz];
        unfold to_tensor; by rewrite length_map.
    + apply normalize_range; try done.
      * unfold to_tensor. by rewrite length_map.
      * apply (scaling_ref_entries (map (normalize pm [1; 1; 1]%R) ps)).
        apply list_elem_of_fmap. exists (to_tensor im). split; [done|].
        apply list_elem_of_fmap. exists (im, target). split; [done|].
        by eapply list_elem_of_lookup_2.
  - intros i Hi.
    destruct (lookup_lt_is_Some_2 ims i Hi) as [im Him].
    pose proof (Forall_lookup_1 _ _ _ _ Hish Him) as [Hc _].
    destruct (Forall2_lookup_r _ _ _ _ _ Hsk Him) as (row & Hrow & Hf & id & Hid).
    exists (normalize sm [ssc; ssc; ssc] (rsub 1 (to_tensor im))), (PInt id).
    split.
    + simpl. unfold SketchesDataset_getitem, open_image, dict_get.
      cbn [stats transform]. rewrite Hrow.
      unfold sketch_path. cbn [sketches_dir]. rewrite Hf.
      cbn [Compose ToTensor InvertTransform rbind].
      rewrite Normalize_ok; [cbn [rbind]; by rewrite Hid| | |by apply Hnz];
        unfold rsub, to_tensor; by rewrite !length_map.
    + apply normalize_range; try done.
      * unfold rsub, to_tensor. by rewrite !length_map.
      * apply (scaling_ref_entries (map (normalize sm [1; 1; 1]%R) ss)).
        apply list_elem_of_fmap. exists (rsub 1 (to_tensor im)). split; [done|].
        apply list_elem_of_fmap. exists im. split; [done|].
        by eapply list_elem_of_lookup_2.
Qed.

Lemma loaded_datasets_range_witness :
  let ps := map (fun p => to_tensor (fst p)) notebook_photos in
  let ss := map (fun im => rsub 1 (to_tensor im)) [notebook_sketch] in
  let photos_mean := mean_ref 3 1 2 ps in
  let sketches_mean := mean_ref 3 1 2 ss in
  let photos_scaling := scaling_ref (map (normalize photos_mean [1; 1; 1]%R) ps) in
  let sketches_scaling := scaling_ref (map (normalize sketches_mean [1; 1; 1]%R) ss) in
  exists photos_dataset sketches_dataset,
    loading_datasets notebook_world notebook_labels notebook_photos
      photos_mean photos_scaling sketches_mean sketches_scaling
    = Ok (photos_dataset, sketches_dataset) /\
    len photos_dataset = length notebook_photos /\
    len sketches_dataset = length [notebook_sketch] /\
    (forall i, i < length notebook_photos ->
       exists t label, getitem photos_dataset i = Ok (Tensor t, label) /\
                       entries_in (-1) 1 t) /\
    (forall i, i < length [notebook_sketch] ->
       exists t label, getitem sketches_dataset i = Ok (Tensor t, label) /\
                       entries_in (-1) 1 t).
Proof.
  apply (loaded_datasets_range notebook_world notebook_labels notebook_photos []
           notebook_rows [notebook_sketch] 1 2 1 2).
  - discriminate.
  - repeat (constructor || split).
  - vm_compute. reflexivity.
  - vm_compute. reflexivity.
  - unfold sketches_present.
    assert (filter (fun r => col_Error r = 0%Z) notebook_rows
            = [ {| Category := "alarm clock"; ImageNetID := "n02694662_92";
                   SketchID := 1; col_Error := 0; col_Ambiguous := 0;
                   col_WrongPose := 0; col_Context := 0 |} ]) as -> by reflexivity.
    constructor; [|constructor]. split.
    + vm_compute. reflexivity.
    + exists 0. vm_compute. reflexivity.
  - repeat (constructor || split).
  - apply Rgt_not_eq, Rlt_gt.
    eapply Rlt_le_trans; [|apply scaling_ref_bound; left; reflexivity].
    apply Rabs_pos_lt. simpl. unfold Rsum. simpl. lra.
  - apply Rgt_not_eq, Rlt_gt.
    eapply Rlt_le_trans; [|apply scaling_ref_bound; left; reflexivity].
    apply Rabs_pos_lt. simpl. unfold Rsum. simpl. lra.
Defined.

Section LabelKeys.

Lemma labels_fold_none_int (l : list string) i :
  length l <= i -> foldl labels_step ∅ (enumerate l) !! PInt i = None.
Proof.
  induction l as [|x l IH] using rev_ind; intros Hi; [done|].
  rewrite enumerate_snoc, foldl_app. simpl. unfold labels_step at 1. simpl.
  rewrite length_app in Hi. simpl in Hi.
  rewrite !lookup_insert_ne; [apply IH; lia| |done].
  intros [= E]. lia.
Qed.

End LabelKeys.

(** X18: the label map has no other keys than the folder names and the
    ids below their number: a label that is no folder name and an id from
    the number of folders on raise [KeyError]; an empty photos directory
    gives the empty dictionary, a missing one (nothing has that path)
    [FileNotFoundError] and the path of a regular file
    [NotADirectoryError]. *)
Theorem labels_id_map_missing (w : World) (photos_dir : string) :
  (forall names d,
     listdir w photos_dir = Ok names ->
     generate_labels_id_map w photos_dir = Ok d ->
     (forall label, label ∉ names ->
        dict_get d (PStr label) = Raise (KeyError (PStr label))) /\
     (forall i, length names <= i ->
        dict_get d (PInt i) = Raise (KeyError (PInt i)))) /\
  (listdir w photos_dir = Ok [] -> generate_labels_id_map w photos_dir = Ok ∅) /\
  (dirs w !! photos_dir = None -> files w !! photos_dir = None ->
   generate_labels_id_map w photos_dir = Raise (FileNotFoundError photos_dir)) /\
  (forall f, dirs w !! photos_dir = None -> files w !! photos_dir = Some f ->
   generate_labels_id_map w photos_dir = Raise (NotADirectoryError photos_dir)).
Proof.
  split; [|split; [|split]].
  - intros names d Hls Hgen. unfold generate_labels_id_map in Hgen.
    rewrite Hls in Hgen. simpl in Hgen. injection Hgen as <-.
    assert (sorted names ≡ₚ names) as Hp by apply merge_sort_Permutation.
    split.
    + intros label Hl. unfold dict_get.
      rewrite labels_fold_none; [done|]. by rewrite Hp.
    + intros i Hi. unfold dict_get.
      rewrite labels_fold_none_int; [done|]. by rewrite Hp.
  - intros Hls. unfold generate_labels_id_map. by rewrite Hls.
  - intros H H'. unfold generate_labels_id_map, listdir. by rewrite H, H'.
  - intros f H H'. unfold generate_labels_id_map, listdir. by rewrite H, H'.
Qed.

(** In the example world there is no class "bat" and no id 2. *)
Example labels_id_map_missing_example :
  (d <- generate_labels_id_map example_world "photos" ;; dict_get d (PStr "bat"))
    = Raise (KeyError (PStr "bat")) /\
  (d <- generate_labels_id_map example_world "photos" ;; dict_get d (PInt 2))
    = Raise (KeyError (PInt 2)).
Proof. split; vm_compute; reflexivity. Qed.

Section Variance.

Local Open Scope R_scope.

Lemma Rsum_sqdev m (l : list R) :
  Rsum (map (fun x => (x - m) ^ 2) l)
  = Rsum (map (fun x => x ^ 2) l) - 2 * m * Rsum l + INR (length l) * m ^ 2.
Proof.
  induction l as [|x l IH].
  - unfold Rsum. simpl. lra.
  - rewrite length_cons, S_INR. unfold Rsum in *. simpl in *. rewrite IH. lra.
Qed.

Lemma Rsum_squares_nonneg m (l : list R) : 0 <= Rsum (map (fun x => (x - m) ^ 2) l).
Proof.
  induction l as [|x l IH]; unfold Rsum in *; simpl; [lra|].
  pose proof (pow2_ge_0 (x - m)). simpl in *. lra.
Qed.

End Variance.

(** X19: computed around the mean that [dataset_mean] returns, the
    standard deviation that [dataset_std] returns satisfies, for every
    channel, std² = (Σ x²) / (N·H·W) - mean². *)
Theorem variance_identity (dataset : Dataset) (imgs : list tensor3)
    (c h w batch_size : nat) :
  stores dataset imgs ->
  Forall (has_shape c h w) imgs ->
  imgs <> [] ->
  0 < c -> 0 < h -> 0 < w ->
  0 < batch_size ->
  exists mean std,
    value (dataset_mean dataset batch_size) = Ok (Vector mean) /\
    value (dataset_std dataset (Vector mean) batch_size) = Ok std /\
    length mean = c /\ length std = c /\
    forall j, j < c ->
      (nth j std 0 ^ 2
       = Rsum (map (fun x => x ^ 2) (channel_pixels imgs j)) / INR (length imgs * h * w)
         - nth j mean 0 ^ 2)%R.
Proof.
  intros Hst Hsh Hne Hc Hh Hw Hbs.
  exists (mean_ref c h w imgs), (std_ref c h w (mean_ref c h w imgs) imgs).
  split; [by rewrite (dataset_mean_run dataset imgs c h w)|].
  split.
  { rewrite (dataset_std_run dataset imgs c h w) by done.
    rewrite decide_True by (left; by rewrite length_mean_ref).
    unfold bc_len. rewrite decide_True by (by rewrite length_mean_ref).
    simpl. by rewrite (std_of_sqdev c h w) by (done || apply length_mean_ref). }
  split; [apply length_mean_ref|]. split; [apply length_std_ref|].
  intros j Hj.
  assert (0 < length imgs * h * w) as Hn.
  { destruct imgs; simpl; [done|]. nia. }
  assert (0 < INR (length imgs * h * w))%R as Hpos by (apply lt_0_INR; lia).
  assert (nth j (mean_ref c h w imgs) 0%R
          = (Rsum (channel_pixels imgs j) / INR (length imgs * h * w))%R) as Em.
  { unfold mean_ref.
    rewrite (nth_indep _ 0%R ((fun j => Rsum (channel_pixels imgs j)
               / INR (length imgs * h * w))%R 0))
      by (rewrite length_map, length_seq; lia).
    rewrite (map_nth (fun j => Rsum (channel_pixels imgs j)
               / INR (length imgs * h * w))%R).
    by rewrite seq_nth by lia. }
  assert (nth j (std_ref c h w (mean_ref c h w imgs) imgs) 0%R
          = sqrt (Rsum (map (fun x => (x - nth j (mean_ref c h w imgs) 0) ^ 2)%R
                          (channel_pixels imgs j))
                  / INR (length imgs * h * w))) as Es.
  { unfold std_ref at 1.
    set (f := fun j => sqrt (Rsum (map (fun x => (x - nth j (mean_ref c h w imgs) 0) ^ 2)%R
                          (channel_pixels imgs j)) / INR (length imgs * h * w))).
    rewrite (nth_indep _ 0%R (f 0)) by (rewrite length_map, length_seq; lia).
    rewrite (map_nth f). by rewrite seq_nth by lia. }
  rewrite Es. rewrite pow2_sqrt.
  - rewrite Rsum_sqdev, Em.
    rewrite (channel_pixels_length c h w) by (done || lia).
    set (n := INR (length imgs * h * w)) in *.
    set (s := Rsum (channel_pixels imgs j)).
    field. lra.
  - apply Rmult_le_pos; [apply Rsum_squares_nonneg|].
    apply Rlt_le, Rinv_0_lt_compat. done.
Qed.

Lemma variance_identity_witness :
  exists mean std,
    value (dataset_mean (of_tensors two_images) 1) = Ok (Vector mean) /\
    value (dataset_std (of_tensors two_images) (Vector mean) 1) = Ok std /\
    length mean = 1 /\ length std = 1 /\
    forall j, j < 1 ->
      (nth j std 0 ^ 2
       = Rsum (map (fun x => x ^ 2) (channel_pixels two_images j))
           / INR (length two_images * 1 * 2)
         - nth j mean 0 ^ 2)%R.
Proof.
  apply (variance_identity (of_tensors two_images) two_images 1 1 2 1).
  - apply of_tensors_stores.
  - apply two_images_shape.
  - discriminate.
  - lia.
  - lia.
  - lia.
  - lia.
Defined.

Section NoData.

Lemma dataset_mean_len0 dataset bs :
  len dataset = 0 -> 0 < bs -> dataset_mean dataset bs = Raise ZeroDivisionError.
Proof.
  intros Hlen Hbs. unfold dataset_mean, DataLoader, iterate.
  rewrite decide_False by lia. cbn [lift bind dl_dataset dl_batches].
  by rewrite Hlen.
Qed.

End NoData.

(** X20: without data the cells raise and save nothing: with no photo,
    [ImageFolder] refuses the root with [RuntimeError] before any statistic
    is computed; with photos but every row of stats.csv flagged as an
    error, the mean of the sketches raises [ZeroDivisionError]. *)
Theorem preprocessing_without_data :
  (forall w labels_id_map,
     preprocessing w labels_id_map [] = Raise RuntimeError) /\
  (forall w labels_id_map photos lines rows h wd,
     photos <> [] ->
     Forall (fun p => pil_shape 3 h wd (fst p)) photos ->
     0 < h -> 0 < wd ->
     files w !! path_join INFO_DIR ["invalid-error.txt"] = Some (TextFile lines) ->
     files w !! path_join INFO_DIR ["stats.csv"] = Some (CsvFile rows) ->
     Forall (fun r => col_Error r <> 0%Z) rows ->
     preprocessing w labels_id_map photos = Raise ZeroDivisionError).
Proof.
  split.
  - intros w lm. reflexivity.
  - intros w lm photos lines rows h wd Hne Hsh Hh Hwd Hinv Hcsv Hrows.
    set (ps := map (fun p => to_tensor (fst p)) photos).
    assert (Forall (has_shape 3 h wd) ps) as Hps.
    { apply Forall_fmap. eapply Forall_impl; [exact Hsh|].
      intros p Hp. by apply to_tensor_shape. }
    assert (ps <> []) as Hpsne by (subst ps; by destruct photos).
    set (pm := mean_ref 3 h wd ps).
    destruct (statistics_values 3 h wd ltac:(lia) Hh Hwd
                (ImageFolder_dataset photos (Some ToTensor))
                (ImageFolder_dataset photos
                   (Some (Compose [ToTensor; Normalize (entries (Vector pm)) [1; 1; 1]%R])))
                ps Hpsne Hps) as (Hpm & Hpd & Hpsc).
    { by apply (stores_ImageFolder photos ToTensor to_tensor), Forall_true. }
    { unfold ps. rewrite map_map.
      apply (stores_ImageFolder photos _ (fun im => normalize pm [1; 1; 1]%R (to_tensor im))).
      eapply Forall_impl; [exact Hsh|]. intros p [Hp _].
      cbn [Compose ToTensor rbind entries].
      rewrite Normalize_ok; [done| | |apply ones_nonzero];
        unfold to_tensor; by rewrite length_map. }
    unfold preprocessing.
    rewrite ImageFolder_ok by done. cbn [rbind].
    rewrite Hpm. cbn [rbind]. rewrite Hpd. cbn [rbind].
    rewrite ImageFolder_ok by done. cbn [rbind].
    fold pm. rewrite Hpsc. cbn [rbind].
    unfold SketchesDataset_init, open_lines, read_csv. rewrite Hinv, Hcsv.
    cbn [rbind remove_error_default remove_ambiguous_default
         remove_pose_default remove_context_default].
    rewrite dataset_mean_len0; [done| |unfold default_batch_size; lia].
    simpl. unfold SketchesDataset_len. simpl.
    apply length_zero_iff_nil.
    assert (forall l : list stats_row,
              Forall (fun r => col_Error r <> 0%Z) l ->
              filter (fun r => col_Error r = 0%Z) l = []) as E.
    { intros l Hl. induction Hl as [|r l Hr _ IH]; [done|].
      by rewrite filter_cons_False. }
    by apply E.
Qed.

Lemma preprocessing_without_data_witness :
  preprocessing all_flagged_world ∅ [] = Raise RuntimeError /\
  preprocessing all_flagged_world ∅ notebook_photos = Raise ZeroDivisionError.
Proof.
  split; [apply (proj1 preprocessing_without_data all_flagged_world ∅)|].
  apply (proj2 preprocessing_without_data all_flagged_world ∅ notebook_photos []
           [ {| Category := "alarm clock"; ImageNetID := "n02694662_92";
                SketchID := 2; col_Error := 1; col_Ambiguous := 0;
                col_WrongPose := 0; col_Context := 0 |} ] 1 2).
  - discriminate.
  - repeat (constructor || split).
  - lia.
  - lia.
  - vm_compute. reflexivity.
  - vm_compute. reflexivity.
  - repeat constructor. done.
Defined.
